(** * Balance aggregation and valuation core of the exchange monitor

    A shallow embedding of [ws.js], of its later revision with the
    supplementary "Fund" account logic, and of [rest.js].

    - JavaScript numbers are IEEE-754 binary64 values: Rocq's primitive
      [float], with the same rounding, infinities, signed zeros and NaN.
    - A JavaScript object used as a dictionary is an association list in
      insertion order ([Object.entries] / [Object.values] order), with
      in-place update of an existing key.
    - An exchange client is a record of the answers of its network calls
      during one pass; a call that rejects is a [Throw] with the message of
      its exception. The markets of an exchange are taken as loaded.
    - A pass is a function from the group record and the balance cache to
      the group record and the cache it leaves; for [rest.js], where an
      exception can leave [processBalanceData], the result also says how the
      pass ended. *)

From Stdlib Require Import Floats List String Ascii Bool NArith ZArith Lia.
Import ListNotations.
Set Warnings "-inexact-float".
Open Scope string_scope.
Open Scope float_scope.

(** ** JavaScript values and objects *)

Module JS.

(** The values a price variable takes in the source. *)
Inductive value : Type :=
| Null
| Undefined
| Num (x : float).

(** Truthiness of a number: every number but [0], [-0] and [NaN]. *)
Definition truthyNum (x : float) : bool :=
  negb (PrimFloat.eqb x 0) && PrimFloat.eqb x x.

Definition truthy (v : value) : bool :=
  match v with
  | Num x => truthyNum x
  | _ => false
  end.

(** [a || b] on a possibly-undefined number [a]. *)
Definition orElse (a b : option float) : option float :=
  match a with
  | Some x => if truthyNum x then Some x else b
  | None => b
  end.

(** [ToNumber]: [undefined] becomes [NaN]. *)
Definition toNumber (a : option float) : float :=
  match a with
  | Some x => x
  | None => nan
  end.

Definition ofOption (a : option float) : value :=
  match a with
  | Some x => Num x
  | None => Undefined
  end.

(** [x !== 0] on numbers. *)
Definition strictNeqZero (x : float) : bool := negb (PrimFloat.eqb x 0).

(** Outcome of an awaited call. *)
Inductive result (A : Type) : Type :=
| Ok (a : A)
| Throw (message : string).
Arguments Ok {A} a.
Arguments Throw {A} message.

(** Objects as dictionaries: the own properties in the order in which
    [Object.entries] lists them. *)
Definition obj (A : Type) : Type := list (string * A).

Section Obj.
Context {A : Type}.

Fixpoint get (k : string) (o : obj A) : option A :=
  match o with
  | [] => None
  | (k', v) :: o' => if String.eqb k k' then Some v else get k o'
  end.

(** [o[k] = v]: an existing key keeps its position and a new one goes last,
    the order of insertion that objects keep for keys other than array
    indices. *)
Fixpoint set (k : string) (v : A) (o : obj A) : obj A :=
  match o with
  | [] => [(k, v)]
  | (k', v') :: o' =>
      if String.eqb k k' then (k, v) :: o' else (k', v') :: set k v o'
  end.

(** [delete o[k]]. *)
Fixpoint del (k : string) (o : obj A) : obj A :=
  match o with
  | [] => []
  | (k', v') :: o' =>
      if String.eqb k k' then del k o' else (k', v') :: del k o'
  end.

Definition keys (o : obj A) : list string := map fst o.
Definition values (o : obj A) : list A := map snd o.

(** Keys of an object are pairwise distinct. *)
Definition wf (o : obj A) : Prop := NoDup (keys o).
End Obj.

(** [{...a, ...b}]. *)
Definition spread {A : Type} (a b : obj A) : obj A :=
  fold_left (fun acc kv => set (fst kv) (snd kv) acc) b a.

Definition startsWith (s p : string) : bool := String.prefix p s.

Definition endsWith (s p : string) : bool :=
  let n := String.length s in
  let m := String.length p in
  (m <=? n)%nat && String.eqb (String.substring (n - m) m s) p.

End JS.

Import JS.

(** ** Property names *)

(** The names every plain object inherits from [Object.prototype]: looked up
    on an object without such an own property they give a function or
    object, which is truthy and has no [push]. *)
Definition prototypeNames : list string :=
  ["constructor"; "__proto__"; "hasOwnProperty"; "isPrototypeOf";
   "propertyIsEnumerable"; "toLocaleString"; "toString"; "valueOf";
   "__defineGetter__"; "__defineSetter__"; "__lookupGetter__";
   "__lookupSetter__"].

Definition inherited (k : string) : bool :=
  existsb (String.eqb k) prototypeNames.

(** The value of a decimal numeral, read after the digits worth [acc]. *)
Fixpoint numeral (s : string) (acc : N) : option N :=
  match s with
  | EmptyString => Some acc
  | String c s' =>
      let n := N_of_ascii c in
      if ((48 <=? n) && (n <=? 57))%N
      then numeral s' (10 * acc + (n - 48))%N
      else None
  end.

(** An array index: the canonical numeral of an integer below [2^32 - 1].
    An object enumerates its keys of this form first, in numeric order, and
    its other keys after them, in insertion order. *)
Definition isArrayIndex (k : string) : bool :=
  match k with
  | EmptyString => false
  | String c _ =>
      match numeral k 0 with
      | Some n =>
          (String.eqb k "0" || negb (Ascii.eqb c "0"%char))
          && (n <? 4294967295)%N
      | None => false
      end
  end.

(** ** Data shared by the three monitors *)

Inductive AssetType : Type := spot | futures.

Record Asset : Type := mkAsset {
  symbol : string;
  amount : float;
  baseValue : float;
  type : AssetType
}.

(** One entry of the global balances object. *)
Record Group : Type := mkGroup {
  exchange : string;
  balances : obj Asset;
  baseCurrency : string;
  total : float;
  spotBalance : option float;
  earnBalance : option float
}.

Record Ticker : Type := mkTicker {
  last : option float;
  close : option float
}.

Record Position : Type := mkPosition {
  pos_symbol : string;
  contracts : float;
  unrealizedPnl : option float
}.

(** What [fetchBalance] / [watchBalance] deliver; [total] may be missing. *)
Record BalanceData : Type := mkBalanceData {
  bd_total : option (obj float)
}.

(** An account as [fetchAccounts] lists it; a missing [info] field makes the
    property access throw. The numerals are taken as already parsed. *)
Record CoinbaseAccount : Type := mkCoinbaseAccount {
  code : string;
  available_balance : option float;
  hold : option float
}.

(** A lending entry of the earn endpoint, [amount] as [parseFloat] reads it. *)
Record Lend : Type := mkLend {
  lend_currency : string;
  lend_amount : float
}.

(** The exchange client: configuration and the answers of its calls. *)
Record Exchange : Type := mkExchange {
  id : string;
  defaultType : option string;
  isFundAccount : bool;
  has_watchBalance : bool;
  has_fetchPositions : bool;
  markets : string -> bool;
  loadMarkets : result unit;
  fetchTicker : string -> result Ticker;
  fetchPositions : result (list Position);
  fetchBalance : option string -> result BalanceData;
  fetchAccounts : result (list CoinbaseAccount);
  privateEarnGetUniLends : result (list Lend)
}.

(** The [ccxt] module: exchange classes by identifier, instantiated without
    credentials. An unknown identifier is [undefined]. *)
Definition Ccxt : Type := string -> option Exchange.

Definition emptySnapshot : BalanceData := mkBalanceData (Some []).

(** [Object.values(assets).reduce((acc, curr) => acc + curr.baseValue, 0)] *)
Definition sumBaseValue (assets : obj Asset) : float :=
  fold_left (fun acc curr => acc + baseValue curr) (values assets) 0.

(** The candidate market names, in probing order. *)
Definition possiblePairs (currency base : string) : list string :=
  [ currency ++ "/" ++ base;
    base ++ "/" ++ currency;
    currency ++ "/USD";
    "USD/" ++ currency;
    currency ++ "/USDT";
    "USDT/" ++ currency ]%string.

Definition invertPriceOf (base pair : string) : bool :=
  startsWith pair (base ++ "/") || startsWith pair "USD/"
  || startsWith pair "USDT/".

(** First candidate that is a market of [ex], with its inversion flag. *)
Fixpoint findMarket (ex : Exchange) (base : string) (pairs : list string)
  : option (string * bool) :=
  match pairs with
  | [] => None
  | candidate :: rest =>
      if markets ex candidate
      then Some (candidate, invertPriceOf base candidate)
      else findMarket ex base rest
  end.

(** [ticker.last || ticker.close] *)
Definition lastOrClose (t : Ticker) : option float :=
  orElse (last t) (close t).

Definition alternativeExchanges : list string :=
  ["binance"; "kraken"; "coinbasepro"].

Definition isDust (x : float) : bool := PrimFloat.ltb (abs x) 0.01.

(** [position.unrealizedPnl || 0] *)
Definition upnlOf (p : Position) : float :=
  match orElse (unrealizedPnl p) (Some 0) with
  | Some x => x
  | None => 0
  end.

Definition futuresAsset (p : Position) : Asset :=
  mkAsset (pos_symbol p) (contracts p) (upnlOf p) futures.

(** ** [ws.js]: the push/poll monitor with a balance cache *)

Module Ws.

(** The [try] body of [fetchCompleteBalance] for coinbase: the per-account
    accumulation of [available + hold]. *)
Fixpoint sumAccounts (accounts : list CoinbaseAccount) (totalBalances : obj float)
  : result (obj float) :=
  match accounts with
  | [] => Ok totalBalances
  | account :: rest =>
      match available_balance account, hold account with
      | Some available, Some hold_ =>
          let t := available + hold_ in
          let current :=
            match get (code account) totalBalances with
            | Some x => if truthyNum x then x else 0
            | None => 0
            end in
          sumAccounts rest (set (code account) (current + t) totalBalances)
      | _, _ => Throw "TypeError"
      end
  end.

Definition fetchBalanceBody (gateioType : option string) (ex : Exchange)
  : result BalanceData :=
  if String.eqb (id ex) "coinbase" then
    match fetchBalance ex None with
    | Throw m => Throw m
    | Ok _ =>
        match fetchAccounts ex with
        | Throw m => Throw m
        | Ok accounts =>
            match sumAccounts accounts [] with
            | Throw m => Throw m
            | Ok totalBalances => Ok (mkBalanceData (Some totalBalances))
            end
        end
    end
  else if String.eqb (id ex) "gateio" then fetchBalance ex gateioType
  else fetchBalance ex None.

(** [fetchCompleteBalance]: whatever the body throws is replaced by the
    empty snapshot. *)
Definition fetchCompleteBalance (ex : Exchange) : BalanceData :=
  match fetchBalanceBody (Some "swap") ex with
  | Ok balanceData => balanceData
  | Throw _ => emptySnapshot
  end.

(** The first loop of a pass: merge the snapshot into the cache. *)
Definition cacheStep (balanceCache : obj float) (entry : string * float)
  : obj float :=
  let '(currency, amount) := entry in
  if truthyNum amount && PrimFloat.ltb 1e-6 (abs amount)
  then set currency amount balanceCache
  else match get currency balanceCache with
       | Some cached =>
           if truthyNum cached then del currency balanceCache
           else balanceCache
       | None => balanceCache
       end.

Definition updateCache (totalBalances balanceCache : obj float) : obj float :=
  fold_left cacheStep totalBalances balanceCache.

(** [fetchPriceFromAlternativeExchange] *)
Fixpoint altPriceFrom (ccxt : Ccxt) (currency base : string)
  (ids : list string) : value :=
  match ids with
  | [] => Null
  | exchangeId :: rest =>
      match ccxt exchangeId with
      | None => altPriceFrom ccxt currency base rest
      | Some altExchange =>
          match loadMarkets altExchange with
          | Throw _ => altPriceFrom ccxt currency base rest
          | Ok _ =>
              match findMarket altExchange base (possiblePairs currency base) with
              | None => altPriceFrom ccxt currency base rest
              | Some (candidate, invertPrice) =>
                  match fetchTicker altExchange candidate with
                  | Throw _ => altPriceFrom ccxt currency base rest
                  | Ok ticker =>
                      let price := lastOrClose ticker in
                      if invertPrice then Num (1 / toNumber price)
                      else ofOption price
                  end
              end
          end
      end
  end.

Definition fetchPriceFromAlternativeExchange (ccxt : Ccxt)
  (currency base : string) : value :=
  altPriceFrom ccxt currency base alternativeExchanges.

(** The value of [price] when control reaches [if (price)]; [Null] stands
    for the two early [continue]s as well. *)
Definition resolvePrice (ccxt : Ccxt) (ex : Exchange) (currency base : string)
  : value :=
  match findMarket ex base (possiblePairs currency base) with
  | None => fetchPriceFromAlternativeExchange ccxt currency base
  | Some (marketId, invertPrice) =>
      match fetchTicker ex marketId with
      | Ok ticker =>
          let priceValue := lastOrClose ticker in
          if invertPrice then Num (1 / toNumber priceValue)
          else ofOption priceValue
      | Throw _ => fetchPriceFromAlternativeExchange ccxt currency base
      end
  end.

(** [baseValue] of one cached holding, [None] when the body [continue]s
    before the dust test. *)
Definition valueOf (ccxt : Ccxt) (ex : Exchange) (base currency : string)
  (amount : float) : option float :=
  if negb (String.eqb currency base) then
    match resolvePrice ccxt ex currency base with
    | Null => None
    | price =>
        if truthy price
        then match price with
             | Num p => Some (amount * p)
             | _ => None
             end
        else None
    end
  else Some amount.

(** One iteration of the loop over [Object.entries(balanceCache)]. *)
Definition assetStep (ccxt : Ccxt) (ex : Exchange) (base : string)
  (newAssets : obj Asset) (entry : string * float) : obj Asset :=
  let '(currency, amount) := entry in
  match valueOf ccxt ex base currency amount with
  | None => newAssets
  | Some baseValue =>
      if isDust baseValue then newAssets
      else set currency (mkAsset currency amount baseValue spot) newAssets
  end.

Definition spotAssets (ccxt : Ccxt) (ex : Exchange) (base : string)
  (balanceCache : obj float) : obj Asset :=
  fold_left (assetStep ccxt ex base) balanceCache [].

(** The loop over the open positions; a throwing ticker fetch leaves the
    loop and is caught around it. *)
Fixpoint positionLoop (ex : Exchange) (positions : list Position)
  (newAssets : obj Asset) : obj Asset :=
  match positions with
  | [] => newAssets
  | position :: rest =>
      if strictNeqZero (contracts position) then
        if markets ex (pos_symbol position) then
          match fetchTicker ex (pos_symbol position) with
          | Throw _ => newAssets
          | Ok _ =>
              if isDust (upnlOf position) then positionLoop ex rest newAssets
              else positionLoop ex rest
                     (set (pos_symbol position) (futuresAsset position) newAssets)
          end
        else positionLoop ex rest newAssets
      else positionLoop ex rest newAssets
  end.

Definition withPositions (ex : Exchange) (newAssets : obj Asset) : obj Asset :=
  match fetchPositions ex with
  | Ok positions => positionLoop ex positions newAssets
  | Throw _ => newAssets
  end.

Definition totalsOf (balanceData : BalanceData) : obj float :=
  match bd_total balanceData with
  | Some t => t
  | None => []
  end.

Definition publish (g : Group) (newAssets : obj Asset) : Group :=
  mkGroup (exchange g) newAssets (baseCurrency g) (sumBaseValue newAssets)
          (spotBalance g) (earnBalance g).

(** [processBalanceData], on the group record of [groupName]. *)
Definition processBalanceData (ccxt : Ccxt) (ex : Exchange)
  (balanceData : BalanceData) (g : Group) (balanceCache : obj float)
  : Group * obj float :=
  let balanceCache' := updateCache (totalsOf balanceData) balanceCache in
  let newAssets := spotAssets ccxt ex (baseCurrency g) balanceCache' in
  let newAssets' :=
    if has_fetchPositions ex then withPositions ex newAssets else newAssets in
  (publish g newAssets', balanceCache').

(** [compileAndUpdateBalances]: the pass run on a pushed snapshot. *)
Definition compileAndUpdateBalances (ccxt : Ccxt) (ex : Exchange)
  (balanceData : BalanceData) (g : Group) (balanceCache : obj float)
  : Group * obj float :=
  let balanceCache' := updateCache (totalsOf balanceData) balanceCache in
  let newAssets := spotAssets ccxt ex (baseCurrency g) balanceCache' in
  (publish g newAssets, balanceCache').

(** The loop a connection enters: the push loop when the exchange offers
    [watchBalance], the polling loop otherwise. *)
Inductive loop : Type := watching | polling.

Definition startPollingOrSubscribe (ex : Exchange) : loop :=
  if has_watchBalance ex then watching else polling.

(** One turn of the polling loop: fetch, then process. *)
Definition pollTurn (ccxt : Ccxt) (ex : Exchange) (g : Group)
  (balanceCache : obj float) : Group * obj float :=
  processBalanceData ccxt ex (fetchCompleteBalance ex) g balanceCache.

End Ws.

(** ** The later revision of [ws.js], with fund accounts *)

Module WsFund.

(** An entry of [keys.json], as far as the monitor reads it. *)
Record Account : Type := mkAccount {
  acct_e : string;
  acct_n : string;
  acct_baseCurrency : string;
  acct_defaultType : option string
}.

(** The test that marks a connection as a fund account. *)
Definition fundTest (account : Account) : bool :=
  endsWith (acct_n account) " Fund"
  && match acct_defaultType account with
     | Some t => String.eqb t "swap"
     | None => false
     end.

(** [new exchangeClass({..., options: options || {}})]: the options of the
    account extend the defaults of the class; then the fund flag is set. *)
Definition withAccount (account : Account) (cls : Exchange) : Exchange :=
  mkExchange (id cls)
             (match acct_defaultType account with
              | Some t => Some t
              | None => defaultType cls
              end)
             (if fundTest account then true else isFundAccount cls)
             (has_watchBalance cls) (has_fetchPositions cls) (markets cls)
             (loadMarkets cls) (fetchTicker cls) (fetchPositions cls)
             (fetchBalance cls) (fetchAccounts cls) (privateEarnGetUniLends cls).

Definition initGroup (groupName base : string) : Group :=
  mkGroup groupName [] base 0 None None.

(** [monitorBalances] up to the start of the loop: the exchange object and
    the global balances object with the group entry in place. [mon.js], its
    only caller, passes as [groupName] a key of [groupedAccounts], which is
    never a name inherited from [Object.prototype]; for such a key
    [balancesObj[groupName]] is the lookup of an own property. *)
Definition monitorBalances (ccxt : Ccxt) (account : Account)
  (groupName : string) (balancesObj : obj Group)
  : option (Exchange * obj Group) :=
  match ccxt (acct_e account) with
  | None => None
  | Some cls =>
      Some (withAccount account cls,
            match get groupName balancesObj with
            | Some _ => balancesObj
            | None =>
                set groupName (initGroup groupName (acct_baseCurrency account))
                    balancesObj
            end)
  end.

(** [exchange.options?.defaultType || 'swap'] *)
Definition gateioType (ex : Exchange) : string :=
  match defaultType ex with
  | Some t => if String.eqb t "" then "swap" else t
  | None => "swap"
  end.

Definition fetchCompleteBalance (ex : Exchange) : BalanceData :=
  match Ws.fetchBalanceBody (Some (gateioType ex)) ex with
  | Ok balanceData => balanceData
  | Throw _ => emptySnapshot
  end.

Definition isSwap (ex : Exchange) : bool :=
  match defaultType ex with
  | Some t => String.eqb t "swap"
  | None => false
  end.

(** The loop of [fetchGateioEarnBalance] over the lending entries. *)
Fixpoint earnLoop (ex : Exchange) (response : list Lend)
  (totalUSDTValue : float) : float :=
  match response with
  | [] => totalUSDTValue
  | lend :: rest =>
      let currency := lend_currency lend in
      let amount := lend_amount lend in
      if PrimFloat.ltb 0 amount then
        if String.eqb currency "USDT" || String.eqb currency "USDC"
        then earnLoop ex rest (totalUSDTValue + amount)
        else match fetchTicker ex (currency ++ "/USDT") with
             | Ok ticker =>
                 earnLoop ex rest
                   (totalUSDTValue + amount * toNumber (last ticker))
             | Throw _ => earnLoop ex rest totalUSDTValue
             end
      else earnLoop ex rest totalUSDTValue
  end.

Definition fetchGateioEarnBalance (ex : Exchange) : float :=
  match loadMarkets ex with
  | Throw _ => 0
  | Ok _ =>
      match privateEarnGetUniLends ex with
      | Throw _ => 0
      | Ok response => earnLoop ex response 0
      end
  end.

(** [spotData.total[baseCurrency] || 0] inside its [try]. *)
Definition fetchSpotBalance (ex : Exchange) (base : string) : float :=
  match fetchBalance ex (Some "spot") with
  | Throw _ => 0
  | Ok spotData =>
      match bd_total spotData with
      | None => 0
      | Some t =>
          match get base t with
          | Some x => if truthyNum x then x else 0
          | None => 0
          end
      end
  end.

(** The block that ends both passes. *)
Definition fundStep (ex : Exchange) (g : Group) : Group :=
  if isFundAccount ex then
    let spotBalance' := fetchSpotBalance ex (baseCurrency g) in
    let earnBalance' :=
      if String.eqb (id ex) "gateio" then fetchGateioEarnBalance ex else 0 in
    mkGroup (exchange g) (balances g) (baseCurrency g) (total g)
            (Some spotBalance') (Some earnBalance')
  else g.

(** The part of a pass before the fund block; the valuation of the cache
    is, line for line, that of [ws.js]. *)
Definition primaryPass (ccxt : Ccxt) (ex : Exchange)
  (balanceData : BalanceData) (g : Group) (balanceCache : obj float)
  : Group * obj float :=
  let balanceCache' := Ws.updateCache (Ws.totalsOf balanceData) balanceCache in
  let newAssets := Ws.spotAssets ccxt ex (baseCurrency g) balanceCache' in
  let newAssets' :=
    if has_fetchPositions ex && isSwap ex
    then Ws.withPositions ex newAssets else newAssets in
  (Ws.publish g newAssets', balanceCache').

Definition processBalanceData (ccxt : Ccxt) (ex : Exchange)
  (balanceData : BalanceData) (g : Group) (balanceCache : obj float)
  : Group * obj float :=
  let '(g', balanceCache') := primaryPass ccxt ex balanceData g balanceCache in
  (fundStep ex g', balanceCache').

(** In this revision the push pass has the same body as the poll pass. *)
Definition compileAndUpdateBalances (ccxt : Ccxt) (ex : Exchange)
  (balanceData : BalanceData) (g : Group) (balanceCache : obj float)
  : Group * obj float :=
  let '(g', balanceCache') := primaryPass ccxt ex balanceData g balanceCache in
  (fundStep ex g', balanceCache').

Definition pollTurn (ccxt : Ccxt) (ex : Exchange) (g : Group)
  (balanceCache : obj float) : Group * obj float :=
  processBalanceData ccxt ex (fetchCompleteBalance ex) g balanceCache.

End WsFund.

(** ** [rest.js]: the polling monitor without a cache *)

Module Rest.

(** How a pass ends: it returns, or an exception leaves it. *)
Inductive outcome : Type :=
| Done
| Threw (message : string).

Definition fetchBalanceBody (ex : Exchange) : result BalanceData :=
  if String.eqb (id ex) "coinbase" then
    match fetchBalance ex None with
    | Throw m => Throw m
    | Ok balanceData =>
        match fetchBalance ex (Some "cash") with
        | Throw m => Throw m
        | Ok cashBalance =>
            Ok (mkBalanceData
                  (Some (spread (Ws.totalsOf balanceData)
                                (Ws.totalsOf cashBalance))))
        end
    end
  else if String.eqb (id ex) "gateio" then fetchBalance ex (Some "swap")
  else fetchBalance ex None.

Definition fetchCompleteBalance (ex : Exchange) : BalanceData :=
  match fetchBalanceBody ex with
  | Ok balanceData => balanceData
  | Throw _ => emptySnapshot
  end.

(** The USDC entry, when truthy, is deleted and the totals are rebuilt as
    [{USDC: usdcAmount, ...totalBalances}]: the new object lists the array
    indices among its keys first, then USDC, then the other keys in their
    order. [totalBalances] lists its entries as [Object.entries] does, array
    indices first and ascending. *)
Definition usdcFirst (totalBalances : obj float) : obj float :=
  match get "USDC" totalBalances with
  | Some usdcAmount =>
      if truthyNum usdcAmount
      then
        let others := del "USDC" totalBalances in
        (filter (fun kv => isArrayIndex (fst kv)) others
         ++ ("USDC", usdcAmount)
            :: filter (fun kv => negb (isArrayIndex (fst kv))) others)%list
      else totalBalances
  | None => totalBalances
  end.

(** [fetchPriceFromAlternativeExchange] of [rest.js]. *)
Fixpoint altPriceFrom (ccxt : Ccxt) (currency base : string)
  (ids : list string) : value :=
  match ids with
  | [] => Null
  | exchangeId :: rest =>
      match ccxt exchangeId with
      | None => altPriceFrom ccxt currency base rest
      | Some altExchange =>
          match loadMarkets altExchange with
          | Throw _ => altPriceFrom ccxt currency base rest
          | Ok _ =>
              match findMarket altExchange base (possiblePairs currency base) with
              | None => altPriceFrom ccxt currency base rest
              | Some (candidate, _) =>
                  match fetchTicker altExchange candidate with
                  | Throw _ => altPriceFrom ccxt currency base rest
                  | Ok ticker => ofOption (lastOrClose ticker)
                  end
              end
          end
      end
  end.

Definition fetchPriceFromAlternativeExchange (ccxt : Ccxt)
  (currency base : string) : value :=
  altPriceFrom ccxt currency base alternativeExchanges.

(** [price] at [if (price)]: the ticker fetch on the primary exchange is
    not guarded, so its exception leaves the pass. *)
Definition resolvePrice (ccxt : Ccxt) (ex : Exchange) (currency base : string)
  : result value :=
  match findMarket ex base (possiblePairs currency base) with
  | None => Ok (fetchPriceFromAlternativeExchange ccxt currency base)
  | Some (marketId, invertPrice) =>
      match fetchTicker ex marketId with
      | Ok ticker =>
          let price := lastOrClose ticker in
          Ok (if invertPrice then Num (1 / toNumber price) else ofOption price)
      | Throw m => Throw m
      end
  end.

(** The loop over [Object.entries(totalBalances)], writing into the
    group's fresh [balances] object. *)
Fixpoint spotLoop (ccxt : Ccxt) (ex : Exchange) (base : string)
  (entries : obj float) (assets : obj Asset) : obj Asset * outcome :=
  match entries with
  | [] => (assets, Done)
  | (currency, amount) :: rest =>
      if truthyNum amount && PrimFloat.ltb 1e-8 (abs amount) then
        if negb (String.eqb currency base) then
          match resolvePrice ccxt ex currency base with
          | Throw m => (assets, Threw m)
          | Ok Null => spotLoop ccxt ex base rest assets
          | Ok price =>
              if truthy price then
                match price with
                | Num p =>
                    spotLoop ccxt ex base rest
                      (set currency (mkAsset currency amount (amount * p) spot)
                           assets)
                | _ => spotLoop ccxt ex base rest assets
                end
              else spotLoop ccxt ex base rest assets
          end
        else spotLoop ccxt ex base rest
               (set currency (mkAsset currency amount amount spot) assets)
      else spotLoop ccxt ex base rest assets
  end.

Fixpoint positionLoop (ex : Exchange) (positions : list Position)
  (assets : obj Asset) : obj Asset :=
  match positions with
  | [] => assets
  | position :: rest =>
      if strictNeqZero (contracts position) then
        match fetchTicker ex (pos_symbol position) with
        | Throw _ => assets
        | Ok _ =>
            positionLoop ex rest
              (set (pos_symbol position) (futuresAsset position) assets)
        end
      else positionLoop ex rest assets
  end.

Definition withPositions (ex : Exchange) (assets : obj Asset) : obj Asset :=
  match fetchPositions ex with
  | Ok positions => positionLoop ex positions assets
  | Throw _ => assets
  end.

Definition setBalances (g : Group) (assets : obj Asset) : Group :=
  mkGroup (exchange g) assets (baseCurrency g) (total g)
          (spotBalance g) (earnBalance g).

Definition setTotal (g : Group) (t : float) : Group :=
  mkGroup (exchange g) (balances g) (baseCurrency g) t
          (spotBalance g) (earnBalance g).

(** [processBalanceData]: the group record as the pass leaves it, and how
    the pass ended. *)
Definition processBalanceData (ccxt : Ccxt) (ex : Exchange)
  (balanceData : BalanceData) (g : Group) : Group * outcome :=
  let totalBalances := usdcFirst (Ws.totalsOf balanceData) in
  match spotLoop ccxt ex (baseCurrency g) totalBalances [] with
  | (assets, Threw m) => (setBalances g assets, Threw m)
  | (assets, Done) =>
      let assets' :=
        if has_fetchPositions ex then withPositions ex assets else assets in
      (setTotal (setBalances g assets') (sumBaseValue assets'), Done)
  end.

(** The body of the interval callback of [pollBalances]. *)
Definition pollTurn (ccxt : Ccxt) (ex : Exchange) (g : Group)
  : Group * outcome :=
  processBalanceData ccxt ex (fetchCompleteBalance ex) g.

End Rest.

(** ** The global balances object *)

(** A pass of one connection on the entry of its group. *)
Definition onGroup {S : Type} (pass : Group -> Group * S) (groupName : string)
  (balancesObj : obj Group) : option (obj Group * S) :=
  match get groupName balancesObj with
  | Some g => let '(g', s) := pass g in Some (set groupName g' balancesObj, s)
  | None => None
  end.

(** [total] agrees with the published assets. *)
Definition consistent (g : Group) : Prop := total g = sumBaseValue (balances g).

Definition allConsistent (balancesObj : obj Group) : Prop :=
  Forall consistent (values balancesObj).

(** Every published asset is worth at least 0.01 in absolute value. *)
Definition dustFree (g : Group) : Prop :=
  Forall (fun a => PrimFloat.leb 0.01 (abs (baseValue a)) = true)
         (values (balances g)).

(** The cache holds only amounts that passed the guard of the merge. *)
Definition cacheTruthy (balanceCache : obj float) : Prop :=
  Forall (fun a => truthyNum a = true) (values balanceCache).

(** No open position is keyed by [c]. *)
Definition noPositionNamed (c : string) (ex : Exchange) : Prop :=
  forall positions, fetchPositions ex = Ok positions ->
                    ~ In c (map pos_symbol positions).

(** The alternate [exchangeId] gives no price: it cannot be instantiated, its
    markets do not load, it lists no candidate, or its ticker call fails. *)
Definition altFails (ccxt : Ccxt) (currency base exchangeId : string) : Prop :=
  match ccxt exchangeId with
  | None => True
  | Some altExchange =>
      match loadMarkets altExchange with
      | Throw _ => True
      | Ok _ =>
          match findMarket altExchange base (possiblePairs currency base) with
          | None => True
          | Some (candidate, _) =>
              match fetchTicker altExchange candidate with
              | Throw _ => True
              | Ok _ => False
              end
          end
      end
  end.

(** The price of [currency] cannot be resolved: no candidate on the primary
    exchange and no alternate answers, or the price found is falsy. *)
Definition unresolvable (ccxt : Ccxt) (ex : Exchange) (currency base : string)
  : Prop :=
  (findMarket ex base (possiblePairs currency base) = None
   /\ forall exchangeId, In exchangeId alternativeExchanges ->
                         altFails ccxt currency base exchangeId)
  \/ truthy (Ws.resolvePrice ccxt ex currency base) = false.

(** [ex] with other answers to the calls that only the fund block makes. *)
Definition withSupplementary (ex : Exchange) (lm : result unit)
  (fb : option string -> result BalanceData) (pe : result (list Lend))
  : Exchange :=
  mkExchange (id ex) (defaultType ex) (isFundAccount ex) (has_watchBalance ex)
             (has_fetchPositions ex) (markets ex) lm (fetchTicker ex)
             (fetchPositions ex) fb (fetchAccounts ex) pe.


(** ** Concrete exchanges and snapshots *)

Module Sample.

Definition noMarkets : string -> bool := fun _ => false.
Definition noTicker : string -> result Ticker :=
  fun _ => Throw "NetworkError".

(** An exchange with no market, no position support, every call failing. *)
Definition offline : Exchange :=
  mkExchange "kucoin" None false false false noMarkets
             (Throw "NetworkError") noTicker (Throw "NetworkError")
             (fun _ => Throw "NetworkError") (Throw "NetworkError")
             (Throw "NetworkError").

(** No alternate exchange can be instantiated. *)
Definition noCcxt : Ccxt := fun _ => None.

Definition groupOf (base : string) : Group := mkGroup "main" [] base 0 None None.

Definition snapshot (t : obj float) : BalanceData := mkBalanceData (Some t).

(** An exchange whose only market is [USD/ETH], last traded at 0.0004. *)
Definition usdEth : Exchange :=
  mkExchange "kucoin" None false false false
             (fun pair => String.eqb pair "USD/ETH")
             (Ok tt)
             (fun pair => if String.eqb pair "USD/ETH"
                          then Ok (mkTicker (Some 0.0004) None)
                          else Throw "BadSymbol")
             (Throw "NotSupported")
             (fun _ => Throw "NetworkError") (Throw "NetworkError")
             (Throw "NetworkError").

(** Only binance is reachable, and it lists [USD/ETH] alone. *)
Definition binanceOnly : Ccxt :=
  fun exchangeId =>
    if String.eqb exchangeId "binance" then Some usdEth else None.

(** A derivatives connection with one open position on a known market. *)
Definition perp : string := "BTC/USDT:USDT".

Definition swapWith (upnl : float) : Exchange :=
  mkExchange "bybit" (Some "swap") false false true
             (fun pair => String.eqb pair perp)
             (Ok tt)
             (fun pair => if String.eqb pair perp
                          then Ok (mkTicker (Some 60000) None)
                          else Throw "BadSymbol")
             (Ok [mkPosition perp 10 (Some upnl)])
             (fun _ => Ok (mkBalanceData (Some [])))
             (Throw "NotSupported") (Throw "NotSupported").

(** A primary exchange that lists [ETH/USD] but whose ticker call fails. *)
Definition flaky : Exchange :=
  mkExchange "kucoin" None false false false
             (fun pair => String.eqb pair "ETH/USD")
             (Ok tt) noTicker (Throw "NotSupported")
             (fun _ => Throw "NetworkError") (Throw "NetworkError")
             (Throw "NetworkError").

(** A group record as a completed pass left it. *)
Definition settled : Group :=
  mkGroup "main" [("USD", mkAsset "USD" 100 100 spot)] "USD" 100 None None.

(** An exchange whose only market is [BTC/USD], last traded at 60000. *)
Definition btcUsd : Exchange :=
  mkExchange "kucoin" None false false false
             (fun pair => String.eqb pair "BTC/USD")
             (Ok tt)
             (fun pair => if String.eqb pair "BTC/USD"
                          then Ok (mkTicker (Some 60000) None)
                          else Throw "BadSymbol")
             (Throw "NotSupported")
             (fun _ => Throw "NetworkError") (Throw "NetworkError")
             (Throw "NetworkError").

(** A gateio fund connection whose supplementary calls all fail. *)
Definition fundFailing : Exchange :=
  mkExchange "gateio" (Some "swap") true false false noMarkets
             (Throw "NetworkError") noTicker (Throw "NetworkError")
             (fun _ => Throw "NetworkError") (Throw "NetworkError")
             (Throw "NetworkError").

(** A gateio fund connection that answers: 250 USDT on the swap account, 75
    USDT on the spot account, and two lending entries, 40 USDT and 0.001 BTC
    with BTC/USDT last traded at 60000. *)
Definition fundWorking : Exchange :=
  mkExchange "gateio" (Some "swap") true false false noMarkets
             (Ok tt)
             (fun pair => if String.eqb pair "BTC/USDT"
                          then Ok (mkTicker (Some 60000) None)
                          else Throw "BadSymbol")
             (Throw "NotSupported")
             (fun t => match t with
                       | Some "spot" => Ok (mkBalanceData (Some [("USDT", 75)]))
                       | _ => Ok (mkBalanceData (Some [("USDT", 250)]))
                       end)
             (Throw "NotSupported")
             (Ok [mkLend "USDT" 40; mkLend "BTC" 0.001]).

Definition fundAccount : WsFund.Account :=
  WsFund.mkAccount "gateio" "Alpha Fund" "USDT" (Some "swap").

End Sample.

(** ** The loops of a connection *)

Module Conn.

(** What one turn of a loop meets: the alternates, the answers of the
    exchange, and what [watchBalance] delivers. *)
Record Turn : Type := mkTurn {
  t_ccxt : Ccxt;
  t_ex : Exchange;
  t_pushed : result BalanceData
}.

(** A connection between two turns: its loop, the record of its group and its
    balance cache. *)
Definition State : Type := (Ws.loop * (Group * obj float))%type.

(** One turn. In the push loop a pushed snapshot is compiled; an exception
    leaves the loop for the polling loop, for good. In the polling loop the
    snapshot is fetched and processed. *)
Definition turnWith
  (push : Ccxt -> Exchange -> BalanceData -> Group -> obj float
          -> Group * obj float)
  (poll : Ccxt -> Exchange -> Group -> obj float -> Group * obj float)
  (w : Turn) (s : State) : State :=
  match s with
  | (Ws.watching, (g, balanceCache)) =>
      match t_pushed w with
      | Ok balanceData =>
          (Ws.watching, push (t_ccxt w) (t_ex w) balanceData g balanceCache)
      | Throw _ => (Ws.polling, (g, balanceCache))
      end
  | (Ws.polling, (g, balanceCache)) =>
      (Ws.polling, poll (t_ccxt w) (t_ex w) g balanceCache)
  end.

(** The loops of [ws.js] and of its revision with fund accounts. *)
Definition turn : Turn -> State -> State :=
  turnWith Ws.compileAndUpdateBalances Ws.pollTurn.

Definition turnFund : Turn -> State -> State :=
  turnWith WsFund.compileAndUpdateBalances WsFund.pollTurn.

Definition run (step : Turn -> State -> State) (turns : list Turn) (s : State)
  : State :=
  fold_left (fun s w => step w s) turns s.

(** The connection as [monitorBalances] starts it on a new group. *)
Definition start (ex : Exchange) (groupName base : string) : State :=
  (Ws.startPollingOrSubscribe ex, (WsFund.initGroup groupName base, [])).

End Conn.

(** Every cached amount is truthy and above the threshold of the merge. *)
Definition cacheAbove (balanceCache : obj float) : Prop :=
  Forall (fun a => truthyNum a && PrimFloat.ltb 1e-6 (abs a) = true)
         (values balanceCache).

(** What holds of a connection between any two turns: the cache has distinct
    keys and amounts above the threshold; the total of the record is the sum
    over its assets, none of which is dust; the valuation currency is the
    one the group was created with. *)
Definition connInvariant (base : string) (s : Conn.State) : Prop :=
  let '(_, (g, balanceCache)) := s in
  wf balanceCache /\ cacheAbove balanceCache
  /\ consistent g /\ dustFree g /\ baseCurrency g = base.

(** ** [mon.js]: accounts by name *)

Module Mon.

(** The reducer of [groupedAccounts]. For a name that the accumulator only
    inherits, [acc[key]] is truthy and [acc[key].push] is not a function. *)
Definition groupStep (acc : obj (list WsFund.Account))
  (account : WsFund.Account) : result (obj (list WsFund.Account)) :=
  let key := WsFund.acct_n account in
  match get key acc with
  | Some group => Ok (set key (group ++ [account])%list acc)
  | None =>
      if inherited key then Throw "TypeError"
      else Ok (set key [account] acc)
  end.

(** [accounts.reduce(..., acc)] *)
Fixpoint reduceAccounts (accounts : list WsFund.Account)
  (acc : obj (list WsFund.Account)) : result (obj (list WsFund.Account)) :=
  match accounts with
  | [] => Ok acc
  | account :: rest =>
      match groupStep acc account with
      | Ok acc' => reduceAccounts rest acc'
      | Throw m => Throw m
      end
  end.

Definition groupedAccounts (accounts : list WsFund.Account)
  : result (obj (list WsFund.Account)) :=
  reduceAccounts accounts [].

End Mon.

(** ** [rest.js]: starting the connections *)

Module RestMon.

Record Account : Type := mkAccount {
  acct_e : string;
  acct_baseCurrency : string;
  acct_groupName : string
}.

(** [monitorBalancesREST]: the global balances object it leaves, the
    connections whose polling was started, and how it ended. An unknown
    exchange is skipped; a failing [loadMarkets] leaves the function. The
    group name comes from the account as it is: for a name inherited from
    [Object.prototype] the test [!balancesObj[groupName]] fails and no entry
    is added. *)
Fixpoint monitorBalancesREST (ccxt : Ccxt) (accounts : list Account)
  (balancesObj : obj Group) (started : list (Exchange * string))
  : (obj Group * list (Exchange * string)) * Rest.outcome :=
  match accounts with
  | [] => ((balancesObj, started), Rest.Done)
  | account :: rest =>
      match ccxt (acct_e account) with
      | None => monitorBalancesREST ccxt rest balancesObj started
      | Some ex =>
          let groupName := acct_groupName account in
          let balancesObj' :=
            match get groupName balancesObj with
            | Some _ => balancesObj
            | None =>
                if inherited groupName then balancesObj
                else set groupName
                       (WsFund.initGroup groupName (acct_baseCurrency account))
                       balancesObj
            end in
          match loadMarkets ex with
          | Throw m => ((balancesObj', started), Rest.Threw m)
          | Ok _ =>
              monitorBalancesREST ccxt rest balancesObj'
                                  (started ++ [(ex, groupName)])%list
          end
      end
  end.

End RestMon.

(** ** Further concrete exchanges *)

Module Scenario.

Definition ethPerp : string := "ETH/USDT:USDT".

(** Two open positions; the ticker of the second cannot be fetched. *)
Definition secondTickerFails : Exchange :=
  mkExchange "bybit" (Some "swap") false false true
             (fun pair => String.eqb pair Sample.perp || String.eqb pair ethPerp)
             (Ok tt)
             (fun pair => if String.eqb pair Sample.perp
                          then Ok (mkTicker (Some 60000) None)
                          else Throw "RateLimitExceeded")
             (Ok [mkPosition Sample.perp 10 (Some 12);
                  mkPosition ethPerp 3 (Some 7)])
             (fun _ => Ok (mkBalanceData (Some [])))
             (Throw "NotSupported") (Throw "NotSupported").

(** kraken is the only alternate that answers; it lists [ETH/USD] at 2500. *)
Definition ethUsd : Exchange :=
  mkExchange "kraken" None false false false
             (fun pair => String.eqb pair "ETH/USD")
             (Ok tt)
             (fun pair => if String.eqb pair "ETH/USD"
                          then Ok (mkTicker (Some 2500) None)
                          else Throw "BadSymbol")
             (Throw "NotSupported")
             (fun _ => Throw "NetworkError") (Throw "NetworkError")
             (Throw "NetworkError").

Definition krakenOnly : Ccxt :=
  fun exchangeId =>
    if String.eqb exchangeId "kraken" then Some ethUsd else None.

(** An exchange of a EUR group that lists [USD/EUR] at 0.9. *)
Definition usdEur : Exchange :=
  mkExchange "kraken" None false false false
             (fun pair => String.eqb pair "USD/EUR")
             (Ok tt)
             (fun pair => if String.eqb pair "USD/EUR"
                          then Ok (mkTicker (Some 0.9) None)
                          else Throw "BadSymbol")
             (Throw "NotSupported")
             (fun _ => Throw "NetworkError") (Throw "NetworkError")
             (Throw "NetworkError").

(** A gateio connection whose lending entries are a stablecoin, an empty
    entry and a coin without ticker. *)
Definition lending : Exchange :=
  mkExchange "gateio" (Some "swap") true false false Sample.noMarkets
             (Ok tt) Sample.noTicker (Throw "NotSupported")
             (fun _ => Throw "NetworkError") (Throw "NetworkError")
             (Ok [mkLend "USDT" 40; mkLend "BTC" 0; mkLend "DOGE" 1000]).

(** A coinbase connection whose cash balance reports USD anew. *)
Definition coinbaseCash : Exchange :=
  mkExchange "coinbase" None false false false Sample.noMarkets
             (Ok tt) Sample.noTicker (Throw "NotSupported")
             (fun t => match t with
                       | None => Ok (mkBalanceData
                                       (Some [("BTC", 1); ("USD", 5)]))
                       | Some _ => Ok (mkBalanceData (Some [("USD", 80)]))
                       end)
             (Throw "NetworkError") (Throw "NetworkError").

End Scenario.

(** ** The connections of [mon.js] over the global balances object *)

Module Global.

(** A running connection: the group it writes to, its loop and its cache. *)
Record Connection : Type := mkConnection {
  c_groupName : string;
  c_loop : Ws.loop;
  c_cache : obj float
}.

Record World : Type := mkWorld {
  balancesObj : obj Group;
  connections : list Connection
}.

(** What happens next: [mon.js] starts the connection of an account, or one
    of the running connections takes a turn of its loop. *)
Inductive Event : Type :=
| Start (ccxt : Ccxt) (account : WsFund.Account) (groupName : string)
| TurnOf (i : nat) (w : Conn.Turn).

Fixpoint replaceAt {A : Type} (i : nat) (x : A) (l : list A) : list A :=
  match l, i with
  | [], _ => []
  | _ :: rest, O => x :: rest
  | y :: rest, S j => y :: replaceAt j x rest
  end.

(** A turn of connection [c]. Without an entry for its group the pass throws:
    the polling loop logs and goes on; the push loop, which by then has merged
    the snapshot into the cache, falls back to polling. *)
Definition turnOf (step : Conn.Turn -> Conn.State -> Conn.State)
  (w : Conn.Turn) (c : Connection) (b : obj Group) : obj Group * Connection :=
  match get (c_groupName c) b with
  | Some g =>
      let '(l, (g', balanceCache)) := step w (c_loop c, (g, c_cache c)) in
      (set (c_groupName c) g' b, mkConnection (c_groupName c) l balanceCache)
  | None =>
      match c_loop c, Conn.t_pushed w with
      | Ws.watching, Ok balanceData =>
          (b, mkConnection (c_groupName c) Ws.polling
                (Ws.updateCache (Ws.totalsOf balanceData) (c_cache c)))
      | Ws.watching, Throw _ =>
          (b, mkConnection (c_groupName c) Ws.polling (c_cache c))
      | Ws.polling, _ => (b, c)
      end
  end.

Definition event (step : Conn.Turn -> Conn.State -> Conn.State)
  (world : World) (e : Event) : World :=
  match e with
  | Start ccxt account groupName =>
      match WsFund.monitorBalances ccxt account groupName (balancesObj world)
      with
      | Some (ex, b) =>
          mkWorld b
            (connections world
             ++ [mkConnection groupName (Ws.startPollingOrSubscribe ex) []])
      | None => world
      end
  | TurnOf i w =>
      match nth_error (connections world) i with
      | Some c =>
          let '(b, c') := turnOf step w c (balancesObj world) in
          mkWorld b (replaceAt i c' (connections world))
      | None => world
      end
  end.

Definition run (step : Conn.Turn -> Conn.State -> Conn.State)
  (events : list Event) (world : World) : World :=
  fold_left (event step) events world.

(** [const balances = {}] and no connection. *)
Definition empty : World := mkWorld [] [].

(** Every group record is consistent and free of dust; every connection has
    a cache with distinct keys and amounts above the threshold, and the
    entry of its group. *)
Definition invariant (world : World) : Prop :=
  allConsistent (balancesObj world)
  /\ Forall dustFree (values (balancesObj world))
  /\ Forall (fun c => wf (c_cache c) /\ cacheAbove (c_cache c)
                      /\ get (c_groupName c) (balancesObj world) <> None)
            (connections world).

End Global.

(** * Properties *)

(** ** Objects *)

Section ObjFacts.
Context {A : Type}.
Implicit Types (o : obj A) (k : string) (v : A).

Lemma get_set_same k v o : get k (set k v o) = Some v.
Proof.
  induction o as [|[k' v'] o IH]; simpl.
  - now rewrite String.eqb_refl.
  - destruct (String.eqb k k') eqn:E; simpl; rewrite ?String.eqb_refl, ?E; auto.
Qed.

Lemma get_set_other k k' v o : k <> k' -> get k (set k' v o) = get k o.
Proof.
  intros N. induction o as [|[k2 v2] o IH]; simpl.
  - apply String.eqb_neq in N. now rewrite N.
  - destruct (String.eqb k' k2) eqn:E; simpl.
    + apply String.eqb_eq in E. subst k2.
      apply String.eqb_neq in N. now rewrite N.
    + now rewrite IH.
Qed.

Lemma get_del_same k o : get k (del k o) = None.
Proof.
  induction o as [|[k' v'] o IH]; simpl; auto.
  destruct (String.eqb k k') eqn:E; simpl; rewrite ?E; auto.
Qed.

Lemma get_del_other k k' o : k <> k' -> get k (del k' o) = get k o.
Proof.
  intros N. induction o as [|[k2 v2] o IH]; simpl; auto.
  destruct (String.eqb k' k2) eqn:E; simpl.
  - apply String.eqb_eq in E. subst k2.
    apply String.eqb_neq in N. now rewrite N.
  - now rewrite IH.
Qed.

Lemma get_none_keys k o : get k o = None <-> ~ In k (keys o).
Proof.
  induction o as [|[k' v'] o IH]; simpl.
  - tauto.
  - destruct (String.eqb k k') eqn:E.
    + apply String.eqb_eq in E. subst. split; [discriminate | tauto].
    + apply String.eqb_neq in E. rewrite IH. split.
      * intros H [H1 | H1]; [congruence | tauto].
      * tauto.
Qed.

Lemma get_some_in k v o : get k o = Some v -> In (k, v) o.
Proof.
  induction o as [|[k' v'] o IH]; simpl; [discriminate|].
  destruct (String.eqb k k') eqn:E.
  - apply String.eqb_eq in E. intros [= ->]. subst. now left.
  - auto.
Qed.

Lemma in_get k v o : wf o -> In (k, v) o -> get k o = Some v.
Proof.
  unfold wf. induction o as [|[k' v'] o IH]; simpl; [tauto|].
  intros W. inversion W as [|? ? Hn W']; subst.
  intros [[= -> ->] | H].
  - now rewrite String.eqb_refl.
  - destruct (String.eqb k k') eqn:E; auto.
    apply String.eqb_eq in E. subst k'.
    exfalso. apply Hn. change k with (fst (k, v)). now apply in_map.
Qed.

Lemma keys_set k k' v o :
  In k (keys (set k' v o)) <-> k = k' \/ In k (keys o).
Proof.
  induction o as [|[k2 v2] o IH]; simpl.
  - intuition.
  - destruct (String.eqb k' k2) eqn:E; simpl.
    + apply String.eqb_eq in E. subst. intuition.
    + rewrite IH. intuition.
Qed.

Lemma keys_del k k' o : In k (keys (del k' o)) <-> k <> k' /\ In k (keys o).
Proof.
  induction o as [|[k2 v2] o IH]; simpl.
  - tauto.
  - destruct (String.eqb k' k2) eqn:E; simpl.
    + apply String.eqb_eq in E. subst. rewrite IH. intuition congruence.
    + apply String.eqb_neq in E. rewrite IH. intuition congruence.
Qed.

Lemma wf_set k v o : wf o -> wf (set k v o).
Proof.
  unfold wf. induction o as [|[k' v'] o IH]; simpl; intros W.
  - constructor; [simpl; tauto | constructor].
  - inversion W as [|? ? Hn W']; subst.
    destruct (String.eqb k k') eqn:E; simpl.
    + apply String.eqb_eq in E. subst. now constructor.
    + apply String.eqb_neq in E. constructor; auto.
      fold (keys (set k v o)). rewrite keys_set. intuition.
Qed.

Lemma wf_del k o : wf o -> wf (del k o).
Proof.
  unfold wf. induction o as [|[k' v'] o IH]; simpl; intros W; auto.
  inversion W as [|? ? Hn W']; subst.
  destruct (String.eqb k k') eqn:E; simpl; auto.
  constructor; auto. fold (keys (del k o)). rewrite keys_del. tauto.
Qed.

Lemma values_set (P : A -> Prop) k v o :
  P v -> Forall P (values o) -> Forall P (values (set k v o)).
Proof.
  intros Pv. unfold values.
  induction o as [|[k' v'] o IH]; simpl; intros F.
  - now constructor.
  - inversion F; subst.
    destruct (String.eqb k k'); simpl; constructor; auto.
Qed.

Lemma values_del (P : A -> Prop) k o :
  Forall P (values o) -> Forall P (values (del k o)).
Proof.
  unfold values.
  induction o as [|[k' v'] o IH]; simpl; intros F; auto.
  inversion F; subst.
  destruct (String.eqb k k'); simpl; auto.
Qed.

Lemma get_values (P : A -> Prop) k v o :
  Forall P (values o) -> get k o = Some v -> P v.
Proof.
  intros F G. apply get_some_in in G.
  rewrite Forall_forall in F. apply F.
  change v with (snd (k, v)). now apply in_map.
Qed.
End ObjFacts.

(** A property of all entries survives an assignment that satisfies it. *)
Lemma entries_set {A : Type} (P : string -> A -> Prop) k v (o : obj A) :
  P k v -> (forall k' v', In (k', v') o -> P k' v') ->
  forall k' v', In (k', v') (set k v o) -> P k' v'.
Proof.
  intros Pv. induction o as [|[k0 v0] o IH]; simpl; intros H k' v'.
  - intros [[= <- <-] | []]. exact Pv.
  - destruct (String.eqb k k0) eqn:E; simpl.
    + intros [[= <- <-] | I]; [exact Pv | apply H; now right].
    + intros [[= <- <-] | I]; [apply H; now left|].
      apply IH; auto.
Qed.

(** ** Binary64 arithmetic *)

Module FloatFacts.

Lemma SFcompare_refl a : a <> S754_nan -> SFcompare a a = Some Eq.
Proof.
  destruct a as [s|s| |s m e]; simpl; intros H; try congruence.
  - destruct s; reflexivity.
  - destruct s; rewrite Z.compare_refl, Pos.compare_cont_refl; reflexivity.
Qed.

Lemma notNaN_spec x : PrimFloat.eqb x x = true <-> Prim2SF x <> S754_nan.
Proof.
  rewrite FloatAxioms.eqb_spec. unfold SFeqb. split.
  - intros H E. rewrite E in H. discriminate.
  - intros H. rewrite SFcompare_refl; auto.
Qed.

Section Shr.
Variables prec emax : Z.

Lemma shr_1_nonneg r : (0 <= shr_m r)%Z -> (0 <= shr_m (shr_1 r))%Z.
Proof.
  destruct r as [m r s]. simpl.
  destruct m as [|p|p]; intros H; try lia.
  - simpl; lia.
  - destruct p; simpl; lia.
Qed.

Lemma iter_pos_inv {T} (f : T -> T) (P : T -> Prop) :
  (forall x, P x -> P (f x)) ->
  forall p x, P x -> P (SpecFloat.iter_pos f p x).
Proof.
  intros Hf. induction p; simpl; intros x Hx; auto.
Qed.

Lemma shr_nonneg r e n : (0 <= shr_m r)%Z -> (0 <= shr_m (fst (shr r e n)))%Z.
Proof.
  intros H. unfold shr. destruct n; simpl; auto.
  apply (iter_pos_inv shr_1 (fun r => (0 <= shr_m r)%Z)); auto using shr_1_nonneg.
Qed.

Lemma shr_fexp_nonneg m e l :
  (0 <= m)%Z -> (0 <= shr_m (fst (shr_fexp prec emax m e l)))%Z.
Proof.
  intros H. unfold shr_fexp. apply shr_nonneg.
  destruct l as [|[ | | ]]; exact H.
Qed.

Lemma round_nearest_even_nonneg m l :
  (0 <= m)%Z -> (0 <= round_nearest_even m l)%Z.
Proof.
  intros H. destruct l as [|[ | | ]]; simpl; try lia.
  destruct (Z.even m); lia.
Qed.

(** Rounding a non-negative mantissa never produces NaN. *)
Lemma binary_round_aux_not_nan sx mx ex lx :
  (0 <= mx)%Z -> binary_round_aux prec emax sx mx ex lx <> S754_nan.
Proof.
  intros H. unfold binary_round_aux.
  pose proof (shr_fexp_nonneg mx ex lx H) as H1.
  destruct (shr_fexp prec emax mx ex lx) as [mrs' e'].
  simpl in H1.
  pose proof (shr_fexp_nonneg _ e' loc_Exact
               (round_nearest_even_nonneg _ (loc_of_shr_record mrs') H1)) as H2.
  destruct (shr_fexp prec emax _ e' loc_Exact) as [mrs'' e''].
  simpl in H2.
  destruct (shr_m mrs'') as [|p|p]; try discriminate.
  - destruct (Z.leb e'' (emax - prec)); discriminate.
  - lia.
Qed.
End Shr.

Lemma truthyNum_SF x :
  truthyNum x = true ->
  Prim2SF x <> S754_nan /\ forall s, Prim2SF x <> S754_zero s.
Proof.
  unfold truthyNum. rewrite andb_true_iff, negb_true_iff.
  intros [Hz Hn]. split.
  - now apply notNaN_spec.
  - intros s E. rewrite FloatAxioms.eqb_spec, E in Hz.
    destruct s; vm_compute in Hz; discriminate.
Qed.

Lemma truthyNum_notNaN x : truthyNum x = true -> PrimFloat.eqb x x = true.
Proof.
  unfold truthyNum. rewrite andb_true_iff. tauto.
Qed.

(** The product of two truthy numbers is a number. *)
Lemma mul_truthy_notNaN x y :
  truthyNum x = true -> truthyNum y = true ->
  PrimFloat.eqb (x * y) (x * y) = true.
Proof.
  intros Hx Hy. apply notNaN_spec. rewrite mul_spec.
  apply truthyNum_SF in Hx, Hy. destruct Hx as [Hx1 Hx2], Hy as [Hy1 Hy2].
  unfold SF64mul.
  destruct (Prim2SF x) as [sx|sx| |sx mx ex]; try congruence;
    try (exfalso; eapply Hx2; reflexivity);
  destruct (Prim2SF y) as [sy|sy| |sy my ey]; try congruence;
    try (exfalso; eapply Hy2; reflexivity); simpl; try discriminate.
  apply binary_round_aux_not_nan. lia.
Qed.

Lemma SF_not_lt_le a m0 e0 :
  a <> S754_nan ->
  SFltb (SFabs a) (S754_finite false m0 e0) = false ->
  SFleb (S754_finite false m0 e0) (SFabs a) = true.
Proof.
  unfold SFltb, SFleb.
  destruct a as [s|s| |s m e]; try congruence; simpl; try discriminate; auto.
  intros _.
  pose proof (Z.compare_antisym e e0) as Hz.
  pose proof (Pos.compare_cont_antisym m m0 Eq) as Hp. simpl in Hp.
  rewrite Hz, <- Hp.
  destruct (e ?= e0)%Z; simpl; try discriminate; auto.
  destruct (Pos.compare_cont Eq m m0); simpl; try discriminate; auto.
Qed.

(** For a number, failing [|x| < 0.01] means [0.01 <= |x|]. *)
Lemma not_dust_le x :
  PrimFloat.eqb x x = true -> isDust x = false ->
  PrimFloat.leb 0.01 (abs x) = true.
Proof.
  unfold isDust. intros Hn. apply notNaN_spec in Hn.
  rewrite ltb_spec, leb_spec, abs_spec.
  assert (C : exists m0 e0, Prim2SF 0.01 = S754_finite false m0 e0)
    by (vm_compute; eauto).
  destruct C as (m0 & e0 & ->).
  now apply SF_not_lt_le.
Qed.

End FloatFacts.

(** ** The cache and its valuation *)

Section CacheFacts.
Variables (ccxt : Ccxt) (ex : Exchange) (base : string).

(** What the asset loop leaves under a key. *)
Lemma assetLoop_get c cache : forall acc,
  wf cache ->
  get c (fold_left (Ws.assetStep ccxt ex base) cache acc) =
  match get c cache with
  | Some a =>
      match Ws.valueOf ccxt ex base c a with
      | Some v => if isDust v then get c acc else Some (mkAsset c a v spot)
      | None => get c acc
      end
  | None => get c acc
  end.
Proof.
  unfold wf. induction cache as [|[k a] rest IH]; cbn [fold_left get];
    intros acc W; auto.
  inversion W as [|? ? Hn W']; subst.
  rewrite IH by assumption.
  destruct (String.eqb c k) eqn:E.
  - apply String.eqb_eq in E. subst k.
    apply get_none_keys in Hn. rewrite Hn.
    unfold Ws.assetStep.
    destruct (Ws.valueOf ccxt ex base c a) as [v|]; auto.
    destruct (isDust v); auto. apply get_set_same.
  - apply String.eqb_neq in E.
    assert (G : get c (Ws.assetStep ccxt ex base acc (k, a)) = get c acc).
    { unfold Ws.assetStep.
      destruct (Ws.valueOf ccxt ex base k a) as [v|]; auto.
      destruct (isDust v); auto. now apply get_set_other. }
    rewrite G. reflexivity.
Qed.

Lemma spotAssets_get c cache :
  wf cache ->
  get c (Ws.spotAssets ccxt ex base cache) =
  match get c cache with
  | Some a =>
      match Ws.valueOf ccxt ex base c a with
      | Some v => if isDust v then None else Some (mkAsset c a v spot)
      | None => None
      end
  | None => None
  end.
Proof.
  intros W. unfold Ws.spotAssets. rewrite assetLoop_get by assumption.
  reflexivity.
Qed.

(** A property of every asset the loop can write holds of its result. *)
Lemma assetLoop_Forall (P : Asset -> Prop) cache : forall acc,
  (forall c a v, In (c, a) cache -> Ws.valueOf ccxt ex base c a = Some v ->
                 isDust v = false -> P (mkAsset c a v spot)) ->
  Forall P (values acc) ->
  Forall P (values (fold_left (Ws.assetStep ccxt ex base) cache acc)).
Proof.
  induction cache as [|[k a] rest IH]; cbn [fold_left]; intros acc H F; auto.
  apply IH; [intros; eapply H; eauto; now right|].
  unfold Ws.assetStep.
  destruct (Ws.valueOf ccxt ex base k a) as [v|] eqn:V; auto.
  destruct (isDust v) eqn:D; auto.
  apply values_set; auto. eapply H; eauto. now left.
Qed.

Lemma positionLoop_Forall (P : Asset -> Prop) ps : forall acc,
  (forall p, In p ps -> strictNeqZero (contracts p) = true ->
             isDust (upnlOf p) = false -> P (futuresAsset p)) ->
  Forall P (values acc) ->
  Forall P (values (Ws.positionLoop ex ps acc)).
Proof.
  induction ps as [|p rest IH]; simpl; intros acc H F; auto.
  assert (H' : forall q, In q rest -> strictNeqZero (contracts q) = true ->
                         isDust (upnlOf q) = false -> P (futuresAsset q))
    by (intros; apply H; auto).
  destruct (strictNeqZero (contracts p)) eqn:C; [|now apply IH].
  destruct (markets ex (pos_symbol p)); [|now apply IH].
  destruct (fetchTicker ex (pos_symbol p)) as [t|m]; [|exact F].
  destruct (isDust (upnlOf p)) eqn:D; [now apply IH|].
  apply IH; auto. apply values_set; auto.
Qed.

(** A currency none of whose entries is valued leaves its key untouched. *)
Lemma assetLoop_get_skipped c cache : forall acc,
  (forall a, In (c, a) cache -> Ws.valueOf ccxt ex base c a = None) ->
  get c (fold_left (Ws.assetStep ccxt ex base) cache acc) = get c acc.
Proof.
  induction cache as [|[k a] rest IH]; cbn [fold_left]; intros acc H; auto.
  rewrite IH by (intros a' Hin; apply H; now right).
  unfold Ws.assetStep.
  destruct (Ws.valueOf ccxt ex base k a) as [v|] eqn:V; auto.
  destruct (isDust v); auto.
  apply get_set_other. intros ->. rewrite H in V by now left. discriminate.
Qed.

(** Entries that are not valued may as well be deleted beforehand. *)
Lemma assetLoop_del c cache : forall acc,
  (forall a, Ws.valueOf ccxt ex base c a = None) ->
  fold_left (Ws.assetStep ccxt ex base) cache acc =
  fold_left (Ws.assetStep ccxt ex base) (del c cache) acc.
Proof.
  induction cache as [|[k a] rest IH]; cbn [fold_left del];
    intros acc H; auto.
  destruct (String.eqb c k) eqn:E.
  - apply String.eqb_eq in E. subst k.
    unfold Ws.assetStep at 2. rewrite H. now apply IH.
  - cbn [fold_left]. now apply IH.
Qed.

Lemma positionLoop_get_other c ps : forall acc,
  ~ In c (map pos_symbol ps) ->
  get c (Ws.positionLoop ex ps acc) = get c acc.
Proof.
  induction ps as [|p rest IH]; simpl; intros acc N; auto.
  assert (N1 : c <> pos_symbol p) by (intros ->; tauto).
  assert (N2 : ~ In c (map pos_symbol rest)) by tauto.
  destruct (strictNeqZero (contracts p)); [|now apply IH].
  destruct (markets ex (pos_symbol p)); [|now apply IH].
  destruct (fetchTicker ex (pos_symbol p)) as [t|m]; [|reflexivity].
  destruct (isDust (upnlOf p)); [now apply IH|].
  rewrite IH by assumption. now apply get_set_other.
Qed.
End CacheFacts.

(** Properties of the entries written by the two loops of a pass. *)
Lemma assetLoop_entries ccxt ex base (P : string -> Asset -> Prop) cache :
  forall acc,
  (forall c amt v, P c (mkAsset c amt v spot)) ->
  (forall k a, In (k, a) acc -> P k a) ->
  forall k a, In (k, a) (fold_left (Ws.assetStep ccxt ex base) cache acc) ->
              P k a.
Proof.
  induction cache as [|[c amt] rest IH]; cbn [fold_left]; intros acc Hs Ha; auto.
  apply IH; auto. unfold Ws.assetStep.
  destruct (Ws.valueOf ccxt ex base c amt) as [v|]; auto.
  destruct (isDust v); auto. now apply entries_set.
Qed.

Lemma positionLoop_entries ex (P : string -> Asset -> Prop) ps : forall acc,
  (forall p, P (pos_symbol p) (futuresAsset p)) ->
  (forall k a, In (k, a) acc -> P k a) ->
  forall k a, In (k, a) (Ws.positionLoop ex ps acc) -> P k a.
Proof.
  induction ps as [|p rest IH]; cbn [Ws.positionLoop]; intros acc Hp Ha; auto.
  destruct (strictNeqZero (contracts p)); [|now apply IH].
  destruct (markets ex (pos_symbol p)); [|now apply IH].
  destruct (fetchTicker ex (pos_symbol p)) as [t|m]; [|exact Ha].
  destruct (isDust (upnlOf p)); [now apply IH|].
  apply IH; auto. now apply entries_set.
Qed.

(** What merging a snapshot leaves in the cache under a key. *)
Lemma updateCache_get c totals : forall cache,
  wf totals ->
  get c (Ws.updateCache totals cache) =
  match get c totals with
  | Some amt =>
      if truthyNum amt && PrimFloat.ltb 1e-6 (abs amt) then Some amt
      else match get c cache with
           | Some cached => if truthyNum cached then None else Some cached
           | None => None
           end
  | None => get c cache
  end.
Proof.
  unfold Ws.updateCache, wf.
  induction totals as [|[k amt] rest IH]; cbn [fold_left get];
    intros cache W; auto.
  inversion W as [|? ? Hn W']; subst.
  rewrite IH by assumption.
  destruct (String.eqb c k) eqn:E.
  - apply String.eqb_eq in E. subst k.
    apply get_none_keys in Hn. rewrite Hn. unfold Ws.cacheStep.
    destruct (truthyNum amt && PrimFloat.ltb 1e-6 (abs amt)).
    + apply get_set_same.
    + destruct (get c cache) as [cached|] eqn:G; auto.
      destruct (truthyNum cached); auto. apply get_del_same.
  - apply String.eqb_neq in E.
    assert (G : get c (Ws.cacheStep cache (k, amt)) = get c cache).
    { unfold Ws.cacheStep.
      destruct (truthyNum amt && PrimFloat.ltb 1e-6 (abs amt)).
      - now apply get_set_other.
      - destruct (get k cache) as [cached|]; auto.
        destruct (truthyNum cached); auto. now apply get_del_other. }
    rewrite G. reflexivity.
Qed.

Lemma wf_updateCache totals : forall cache,
  wf cache -> wf (Ws.updateCache totals cache).
Proof.
  unfold Ws.updateCache.
  induction totals as [|[k amt] rest IH]; cbn [fold_left]; intros cache W; auto.
  apply IH. unfold Ws.cacheStep.
  destruct (truthyNum amt && PrimFloat.ltb 1e-6 (abs amt)).
  - now apply wf_set.
  - destruct (get k cache) as [cached|]; auto.
    destruct (truthyNum cached); auto. now apply wf_del.
Qed.

(** Every cached amount passed the guard of the merge: it is truthy. *)
Lemma truthy_updateCache totals : forall cache,
  Forall (fun a => truthyNum a = true) (values cache) ->
  Forall (fun a => truthyNum a = true) (values (Ws.updateCache totals cache)).
Proof.
  unfold Ws.updateCache.
  induction totals as [|[k amt] rest IH]; cbn [fold_left]; intros cache F; auto.
  apply IH. unfold Ws.cacheStep.
  destruct (truthyNum amt && PrimFloat.ltb 1e-6 (abs amt)) eqn:K.
  - apply values_set; auto. apply andb_true_iff in K. tauto.
  - destruct (get k cache) as [cached|]; auto.
    destruct (truthyNum cached); auto. now apply values_del.
Qed.

(** An empty snapshot leaves the cache as it is. *)
Lemma updateCache_empty cache : Ws.updateCache [] cache = cache.
Proof. reflexivity. Qed.


(** The cache a connection starts with, and every cache a pass leaves, has
    distinct keys and holds truthy amounts only. *)
Lemma cache_invariant ccxt ex balanceData g balanceCache pass :
  pass = Ws.processBalanceData \/ pass = Ws.compileAndUpdateBalances
  \/ pass = WsFund.processBalanceData
  \/ pass = WsFund.compileAndUpdateBalances ->
  (wf (@nil (string * float)) /\ cacheTruthy [])
  /\ (wf balanceCache -> cacheTruthy balanceCache ->
      wf (snd (pass ccxt ex balanceData g balanceCache))
      /\ cacheTruthy (snd (pass ccxt ex balanceData g balanceCache))).
Proof.
  intros Hp. split; [split; constructor|].
  intros W T.
  assert (E : snd (pass ccxt ex balanceData g balanceCache)
              = Ws.updateCache (Ws.totalsOf balanceData) balanceCache)
    by (destruct Hp as [-> | [-> | [-> | ->]]]; reflexivity).
  rewrite E. split; [now apply wf_updateCache | now apply truthy_updateCache].
Qed.


(** ** The reordered totals of the REST monitor *)

Lemma get_app {A : Type} c (l1 l2 : obj A) :
  get c (l1 ++ l2)%list = match get c l1 with
                     | Some v => Some v
                     | None => get c l2
                     end.
Proof.
  induction l1 as [|[k v] l1 IH]; simpl; auto.
  destruct (String.eqb c k); auto.
Qed.

Lemma get_filter {A : Type} (p : string -> bool) c (o : obj A) :
  get c (filter (fun kv => p (fst kv)) o) = if p c then get c o else None.
Proof.
  induction o as [|[k v] o IH]; simpl.
  - now destruct (p c).
  - destruct (String.eqb c k) eqn:E.
    + apply String.eqb_eq in E. subst k.
      destruct (p c) eqn:P; simpl.
      * now rewrite String.eqb_refl.
      * rewrite IH. now rewrite ?P.
    + destruct (p k); simpl; rewrite ?E; exact IH.
Qed.

Lemma keys_filter {A : Type} (p : string -> bool) k (o : obj A) :
  In k (keys (filter (fun kv => p (fst kv)) o)) <-> In k (keys o) /\ p k = true.
Proof.
  unfold keys. rewrite !in_map_iff. split.
  - intros ([k' v] & <- & I). apply filter_In in I. destruct I as [I P].
    split; [|exact P]. exists (k', v). auto.
  - intros (([k' v] & <- & I) & P). exists (k', v). split; auto.
    apply filter_In. auto.
Qed.

Lemma wf_filter {A : Type} (p : string -> bool) (o : obj A) :
  wf o -> wf (filter (fun kv => p (fst kv)) o).
Proof.
  unfold wf, keys. induction o as [|[k v] o IH]; simpl; intros W; auto.
  inversion W as [|? ? Hn W']; subst.
  destruct (p k); simpl; auto.
  constructor; auto. intros I. apply Hn.
  apply (keys_filter p k o) in I. tauto.
Qed.

(** The reordering changes no amount and keeps the keys distinct. *)
Lemma usdcFirst_get totalBalances c :
  get c (Rest.usdcFirst totalBalances) = get c totalBalances.
Proof.
  unfold Rest.usdcFirst.
  destruct (get "USDC" totalBalances) as [u|] eqn:G; [|reflexivity].
  destruct (truthyNum u); [|reflexivity].
  rewrite get_app, get_filter. cbn [get].
  rewrite (get_filter (fun k => negb (isArrayIndex k))).
  destruct (String.eqb c "USDC") eqn:E.
  - apply String.eqb_eq in E. subst c.
    change (isArrayIndex "USDC") with false. cbv iota. now rewrite G.
  - apply String.eqb_neq in E. rewrite get_del_other by assumption.
    destruct (isArrayIndex c); cbn [negb].
    + destruct (get c totalBalances); reflexivity.
    + reflexivity.
Qed.

Lemma wf_usdcFirst totalBalances :
  wf totalBalances -> wf (Rest.usdcFirst totalBalances).
Proof.
  intros W. unfold Rest.usdcFirst.
  destruct (get "USDC" totalBalances) as [u|] eqn:G; [|exact W].
  destruct (truthyNum u); [|exact W].
  pose proof (wf_del "USDC" totalBalances W) as Wd.
  unfold wf, keys. rewrite map_app. cbn [map fst].
  apply NoDup_app.
  - apply (wf_filter isArrayIndex). exact Wd.
  - constructor.
    + intros I. apply (keys_filter (fun k => negb (isArrayIndex k))) in I.
      destruct I as [I _]. apply keys_del in I. tauto.
    + apply (wf_filter (fun k => negb (isArrayIndex k))). exact Wd.
  - intros k I [<- | J].
    + apply (keys_filter isArrayIndex) in I. destruct I as [_ P].
      discriminate P.
    + apply (keys_filter isArrayIndex) in I.
      apply (keys_filter (fun k => negb (isArrayIndex k))) in J.
      destruct I as [_ P], J as [_ Q]. rewrite P in Q. discriminate.
Qed.

(** ** Total consistency *)

Lemma publish_consistent g newAssets : consistent (Ws.publish g newAssets).
Proof. reflexivity. Qed.

Lemma fundStep_keeps ex g :
  balances (WsFund.fundStep ex g) = balances g
  /\ total (WsFund.fundStep ex g) = total g
  /\ baseCurrency (WsFund.fundStep ex g) = baseCurrency g.
Proof.
  unfold WsFund.fundStep. destruct (isFundAccount ex); simpl; auto.
Qed.

(** What the four cache-based passes have in common. *)
Lemma cache_pass_shape ccxt ex balanceData g balanceCache pass :
  pass = Ws.processBalanceData \/ pass = Ws.compileAndUpdateBalances
  \/ pass = WsFund.processBalanceData
  \/ pass = WsFund.compileAndUpdateBalances ->
  exists b : bool,
    balances (fst (pass ccxt ex balanceData g balanceCache))
    = (if b
       then Ws.withPositions ex
              (Ws.spotAssets ccxt ex (baseCurrency g)
                 (Ws.updateCache (Ws.totalsOf balanceData) balanceCache))
       else Ws.spotAssets ccxt ex (baseCurrency g)
              (Ws.updateCache (Ws.totalsOf balanceData) balanceCache))
    /\ total (fst (pass ccxt ex balanceData g balanceCache))
       = sumBaseValue (balances (fst (pass ccxt ex balanceData g balanceCache)))
    /\ baseCurrency (fst (pass ccxt ex balanceData g balanceCache))
       = baseCurrency g
    /\ snd (pass ccxt ex balanceData g balanceCache)
       = Ws.updateCache (Ws.totalsOf balanceData) balanceCache.
Proof.
  intros [-> | [-> | [-> | ->]]].
  - exists (has_fetchPositions ex). repeat split.
  - exists false. repeat split.
  - exists (has_fetchPositions ex && WsFund.isSwap ex).
    unfold WsFund.processBalanceData, WsFund.primaryPass. cbn [fst snd].
    destruct (fundStep_keeps ex
      (Ws.publish g
         (if has_fetchPositions ex && WsFund.isSwap ex
          then Ws.withPositions ex
                 (Ws.spotAssets ccxt ex (baseCurrency g)
                    (Ws.updateCache (Ws.totalsOf balanceData) balanceCache))
          else Ws.spotAssets ccxt ex (baseCurrency g)
                 (Ws.updateCache (Ws.totalsOf balanceData) balanceCache))))
      as (Hb & Ht & Hc).
    rewrite Hb, Ht, Hc. repeat split.
  - exists (has_fetchPositions ex && WsFund.isSwap ex).
    unfold WsFund.compileAndUpdateBalances, WsFund.primaryPass. cbn [fst snd].
    destruct (fundStep_keeps ex
      (Ws.publish g
         (if has_fetchPositions ex && WsFund.isSwap ex
          then Ws.withPositions ex
                 (Ws.spotAssets ccxt ex (baseCurrency g)
                    (Ws.updateCache (Ws.totalsOf balanceData) balanceCache))
          else Ws.spotAssets ccxt ex (baseCurrency g)
                 (Ws.updateCache (Ws.totalsOf balanceData) balanceCache))))
      as (Hb & Ht & Hc).
    rewrite Hb, Ht, Hc. repeat split.
Qed.

(** After a pass of either cache-based monitor, poll or push, the total is
    the sum over the published assets. *)
Lemma cache_passes_consistent ccxt ex balanceData g balanceCache :
  consistent (fst (Ws.processBalanceData ccxt ex balanceData g balanceCache))
  /\ consistent (fst (Ws.compileAndUpdateBalances ccxt ex balanceData g balanceCache))
  /\ consistent (fst (WsFund.processBalanceData ccxt ex balanceData g balanceCache))
  /\ consistent (fst (WsFund.compileAndUpdateBalances ccxt ex balanceData g balanceCache)).
Proof.
  repeat split; try reflexivity;
    unfold WsFund.processBalanceData, WsFund.compileAndUpdateBalances,
           WsFund.primaryPass, consistent; simpl;
    destruct (fundStep_keeps ex
      (Ws.publish g
         (if has_fetchPositions ex && WsFund.isSwap ex
          then Ws.withPositions ex
                 (Ws.spotAssets ccxt ex (baseCurrency g)
                    (Ws.updateCache (Ws.totalsOf balanceData) balanceCache))
          else Ws.spotAssets ccxt ex (baseCurrency g)
                 (Ws.updateCache (Ws.totalsOf balanceData) balanceCache))))
      as (Hb & Ht & _);
    rewrite Hb, Ht; reflexivity.
Qed.

(** A pass of the REST monitor that returns leaves the total equal to the
    sum over the published assets. *)
Lemma rest_completed_pass_consistent ccxt ex balanceData g g' :
  Rest.processBalanceData ccxt ex balanceData g = (g', Rest.Done) ->
  consistent g'.
Proof.
  unfold Rest.processBalanceData.
  destruct (Rest.spotLoop _ _ _ _ _) as [assets [|m]]; intros [= <-].
  reflexivity.
Qed.

(** Replacing the entry of one group by a consistent record keeps every
    entry of the global object consistent. *)
Lemma onGroup_allConsistent {S : Type} (pass : Group -> Group * S)
  groupName balancesObj balancesObj' s :
  (forall g, consistent (fst (pass g))) ->
  allConsistent balancesObj ->
  onGroup pass groupName balancesObj = Some (balancesObj', s) ->
  allConsistent balancesObj'.
Proof.
  unfold onGroup, allConsistent. intros Hp Ha.
  destruct (get groupName balancesObj) as [g|]; [|discriminate].
  specialize (Hp g). destruct (pass g) as [g' s']. intros [= <- <-].
  now apply values_set.
Qed.

(** The entry that [monitorBalances] creates for a new group is consistent:
    no asset, total 0. *)
Lemma monitorBalances_allConsistent ccxt account groupName balancesObj ex
  balancesObj' :
  allConsistent balancesObj ->
  WsFund.monitorBalances ccxt account groupName balancesObj
  = Some (ex, balancesObj') ->
  allConsistent balancesObj'.
Proof.
  unfold WsFund.monitorBalances, allConsistent. intros H.
  destruct (ccxt (WsFund.acct_e account)) as [cls|]; [|discriminate].
  destruct (get groupName balancesObj) as [g|]; intros [= <- <-]; auto.
  apply values_set; auto. reflexivity.
Qed.

(** C1 (failing input): in the REST monitor a ticker fetch on the primary
    exchange that throws leaves the pass after [balances] was replaced and
    before [total] is recomputed: the record keeps the old total, 100, over
    an empty asset mapping, whose sum is 0. *)
Theorem rest_aborted_pass_inconsistent :
  consistent Sample.settled
  /\ Rest.processBalanceData Sample.noCcxt Sample.flaky
       (Sample.snapshot [("ETH", 2)]) Sample.settled
     = (mkGroup "main" [] "USD" 100 None None, Rest.Threw "NetworkError")
  /\ ~ consistent
       (fst (Rest.processBalanceData Sample.noCcxt Sample.flaky
               (Sample.snapshot [("ETH", 2)]) Sample.settled)).
Proof.
  split; [vm_compute; reflexivity|].
  split; [vm_compute; reflexivity|].
  unfold consistent. vm_compute. intros H.
  assert (E : PrimFloat.eqb 100 0 = true) by (rewrite H; reflexivity).
  vm_compute in E. discriminate.
Qed.

(** ** Dust filter *)

Lemma valueOf_notNaN ccxt ex base c a v :
  truthyNum a = true -> Ws.valueOf ccxt ex base c a = Some v ->
  PrimFloat.eqb v v = true.
Proof.
  intros Ta. unfold Ws.valueOf.
  destruct (negb (String.eqb c base)).
  - destruct (Ws.resolvePrice ccxt ex c base) as [| |p]; simpl; try discriminate.
    destruct (truthyNum p) eqn:Tp; [|discriminate].
    intros [= <-]. now apply FloatFacts.mul_truthy_notNaN.
  - intros [= <-]. now apply FloatFacts.truthyNum_notNaN.
Qed.

Lemma upnlOf_notNaN p : PrimFloat.eqb (upnlOf p) (upnlOf p) = true.
Proof.
  unfold upnlOf, orElse.
  destruct (unrealizedPnl p) as [x|]; [|reflexivity].
  destruct (truthyNum x) eqn:T; [|reflexivity].
  now apply FloatFacts.truthyNum_notNaN.
Qed.

Lemma spotAssets_dustFree ccxt ex base balanceCache :
  cacheTruthy balanceCache ->
  Forall (fun a => PrimFloat.leb 0.01 (abs (baseValue a)) = true)
         (values (Ws.spotAssets ccxt ex base balanceCache)).
Proof.
  intros T. unfold Ws.spotAssets. apply assetLoop_Forall; [|constructor].
  intros c a v Hin Hv Hd. simpl.
  apply FloatFacts.not_dust_le; auto.
  eapply valueOf_notNaN; eauto.
  unfold cacheTruthy in T. rewrite Forall_forall in T. apply T.
  change a with (snd (c, a)). now apply in_map.
Qed.

Lemma withPositions_dustFree ex newAssets :
  Forall (fun a => PrimFloat.leb 0.01 (abs (baseValue a)) = true)
         (values newAssets) ->
  Forall (fun a => PrimFloat.leb 0.01 (abs (baseValue a)) = true)
         (values (Ws.withPositions ex newAssets)).
Proof.
  intros F. unfold Ws.withPositions.
  destruct (fetchPositions ex) as [ps|]; auto.
  apply positionLoop_Forall; auto.
  intros p _ _ D. simpl.
  apply FloatFacts.not_dust_le; auto using upnlOf_notNaN.
Qed.

(** C2 (counterexample): the REST monitor has no dust test. A holding of
    0.0000001 BTC, above its amount threshold of 1e-8, is valued through
    [BTC/USD] at 60000 and published with [baseValue] 0.006 in a group
    valued in USD. *)
Lemma rest_publishes_dust :
  get "BTC"
    (balances (fst (Rest.processBalanceData Sample.noCcxt Sample.btcUsd
                      (Sample.snapshot [("BTC", 1e-7)])
                      (Sample.groupOf "USD"))))
  = Some (mkAsset "BTC" 1e-7 0.006 spot)
  /\ PrimFloat.leb 0.01 (abs 0.006) = false
  /\ ~ (forall ccxt ex balanceData g,
          dustFree (fst (Rest.processBalanceData ccxt ex balanceData g))).
Proof.
  split; [vm_compute; reflexivity|]. split; [reflexivity|].
  intros H.
  specialize (H Sample.noCcxt Sample.btcUsd
                (Sample.snapshot [("BTC", 1e-7)]) (Sample.groupOf "USD")).
  unfold dustFree in H. vm_compute in H.
  inversion H as [|? ? E _]. discriminate.
Qed.

(** C2 (amended): in the cache-based monitors, poll pass and push pass of
    [ws.js] and of its revision with fund accounts, every published asset,
    spot or futures, has [|baseValue| >= 0.01]. *)
Theorem cache_passes_dust_free ccxt ex balanceData g balanceCache :
  cacheTruthy balanceCache ->
  dustFree (fst (Ws.processBalanceData ccxt ex balanceData g balanceCache))
  /\ dustFree (fst (Ws.compileAndUpdateBalances ccxt ex balanceData g balanceCache))
  /\ dustFree (fst (WsFund.processBalanceData ccxt ex balanceData g balanceCache))
  /\ dustFree (fst (WsFund.compileAndUpdateBalances ccxt ex balanceData g balanceCache)).
Proof.
  intros T.
  assert (T' : cacheTruthy (Ws.updateCache (Ws.totalsOf balanceData) balanceCache))
    by now apply truthy_updateCache.
  pose proof (spotAssets_dustFree ccxt ex (baseCurrency g) _ T') as S.
  pose proof (withPositions_dustFree ex _ S) as P.
  assert (W : forall b : bool,
             Forall (fun a => PrimFloat.leb 0.01 (abs (baseValue a)) = true)
               (values (if b
                        then Ws.withPositions ex
                               (Ws.spotAssets ccxt ex (baseCurrency g)
                                  (Ws.updateCache (Ws.totalsOf balanceData) balanceCache))
                        else Ws.spotAssets ccxt ex (baseCurrency g)
                               (Ws.updateCache (Ws.totalsOf balanceData) balanceCache))))
    by (intros []; assumption).
  unfold dustFree. repeat split.
  - apply W.
  - exact S.
  - unfold WsFund.processBalanceData, WsFund.primaryPass. simpl.
    destruct (fundStep_keeps ex
      (Ws.publish g
         (if has_fetchPositions ex && WsFund.isSwap ex
          then Ws.withPositions ex
                 (Ws.spotAssets ccxt ex (baseCurrency g)
                    (Ws.updateCache (Ws.totalsOf balanceData) balanceCache))
          else Ws.spotAssets ccxt ex (baseCurrency g)
                 (Ws.updateCache (Ws.totalsOf balanceData) balanceCache))))
      as (Hb & _). rewrite Hb. apply W.
  - unfold WsFund.compileAndUpdateBalances, WsFund.primaryPass. simpl.
    destruct (fundStep_keeps ex
      (Ws.publish g
         (if has_fetchPositions ex && WsFund.isSwap ex
          then Ws.withPositions ex
                 (Ws.spotAssets ccxt ex (baseCurrency g)
                    (Ws.updateCache (Ws.totalsOf balanceData) balanceCache))
          else Ws.spotAssets ccxt ex (baseCurrency g)
                 (Ws.updateCache (Ws.totalsOf balanceData) balanceCache))))
      as (Hb & _). rewrite Hb. apply W.
Qed.

(** The guard holds of the cache a connection starts with and of any cache a
    pass leaves: here after a snapshot with a dust-sized holding. *)
Lemma cache_passes_dust_free_witness :
  cacheTruthy [("BTC", 0.5)]
  /\ dustFree (fst (Ws.processBalanceData Sample.noCcxt Sample.btcUsd
                      (Sample.snapshot [("USD", 0.005)])
                      (Sample.groupOf "USD") [("BTC", 0.5)])).
Proof.
  assert (T : cacheTruthy [("BTC", 0.5)])
    by (repeat constructor).
  split; [exact T|].
  exact (proj1 (cache_passes_dust_free Sample.noCcxt Sample.btcUsd
                  (Sample.snapshot [("USD", 0.005)])
                  (Sample.groupOf "USD") [("BTC", 0.5)] T)).
Defined.

(** ** Cache zeroing *)

(** A key under which the accumulator holds only futures assets holds only
    futures assets after the position loop. *)
Lemma positionLoop_get_futures ex c ps : forall acc,
  (forall a, get c acc = Some a -> type a = futures) ->
  forall a, get c (Ws.positionLoop ex ps acc) = Some a -> type a = futures.
Proof.
  induction ps as [|p rest IH]; simpl; intros acc H; auto.
  destruct (strictNeqZero (contracts p)); [|now apply IH].
  destruct (markets ex (pos_symbol p)); [|now apply IH].
  destruct (fetchTicker ex (pos_symbol p)) as [t|m]; [|exact H].
  destruct (isDust (upnlOf p)); [now apply IH|].
  apply IH. intros b.
  destruct (String.eqb c (pos_symbol p)) eqn:E.
  - apply String.eqb_eq in E. subst c. rewrite get_set_same.
    now intros [= <-].
  - apply String.eqb_neq in E. rewrite get_set_other by assumption. auto.
Qed.

Lemma withPositions_get_futures ex c acc :
  get c acc = None ->
  forall a, get c (Ws.withPositions ex acc) = Some a -> type a = futures.
Proof.
  intros N. unfold Ws.withPositions.
  destruct (fetchPositions ex) as [ps|].
  - apply positionLoop_get_futures. rewrite N. discriminate.
  - rewrite N. discriminate.
Qed.




(** ** Unresolvable prices *)

Lemma altPriceFrom_null ccxt c base ids :
  (forall exchangeId, In exchangeId ids -> altFails ccxt c base exchangeId) ->
  Ws.altPriceFrom ccxt c base ids = Null.
Proof.
  induction ids as [|i rest IH]; intros H; [reflexivity|].
  assert (Hi : altFails ccxt c base i) by (apply H; now left).
  assert (Hr : Ws.altPriceFrom ccxt c base rest = Null)
    by (apply IH; intros; apply H; now right).
  unfold altFails in Hi. cbn [Ws.altPriceFrom].
  destruct (ccxt i) as [alt|]; [|exact Hr].
  destruct (loadMarkets alt); [|exact Hr].
  destruct (findMarket alt base (possiblePairs c base)) as [[cand inv]|];
    [|exact Hr].
  destruct (fetchTicker alt cand); [contradiction | exact Hr].
Qed.

Lemma unresolvable_falsy ccxt ex c base :
  unresolvable ccxt ex c base ->
  truthy (Ws.resolvePrice ccxt ex c base) = false.
Proof.
  intros [[Hm Ha] | H]; auto.
  unfold Ws.resolvePrice, Ws.fetchPriceFromAlternativeExchange.
  rewrite Hm, altPriceFrom_null by assumption. reflexivity.
Qed.

Lemma valueOf_unresolved ccxt ex base c a :
  c <> base -> truthy (Ws.resolvePrice ccxt ex c base) = false ->
  Ws.valueOf ccxt ex base c a = None.
Proof.
  intros N F. unfold Ws.valueOf.
  apply String.eqb_neq in N. rewrite N. simpl.
  destruct (Ws.resolvePrice ccxt ex c base) as [| |p]; auto.
  simpl in F. now rewrite F.
Qed.

Lemma spotAssets_unresolved ccxt ex base c balanceCache :
  c <> base -> unresolvable ccxt ex c base ->
  get c (Ws.spotAssets ccxt ex base balanceCache) = None.
Proof.
  intros N U. unfold Ws.spotAssets.
  rewrite assetLoop_get_skipped; auto.
  intros a _. apply valueOf_unresolved; auto using unresolvable_falsy.
Qed.

(** C4: a currency whose price cannot be resolved yields no asset. The push
    pass of [ws.js] publishes nothing under its key; in the passes that also
    read positions the key can only hold a futures asset written from a
    position; and the spot assets computed from a cache are those computed
    from the cache without the currency, so the total is the one obtained
    without it. *)
Theorem unresolved_price_drops_asset ccxt ex balanceData g balanceCache c :
  c <> baseCurrency g ->
  unresolvable ccxt ex c (baseCurrency g) ->
  get c (balances (fst (Ws.compileAndUpdateBalances ccxt ex balanceData g
                          balanceCache))) = None
  /\ (forall a, get c (balances (fst (Ws.processBalanceData ccxt ex balanceData
                                        g balanceCache))) = Some a ->
                type a = futures)
  /\ (forall a, get c (balances (fst (WsFund.processBalanceData ccxt ex
                                        balanceData g balanceCache))) = Some a ->
                type a = futures)
  /\ (forall a, get c (balances (fst (WsFund.compileAndUpdateBalances ccxt ex
                                        balanceData g balanceCache))) = Some a ->
                type a = futures)
  /\ (forall cache, Ws.spotAssets ccxt ex (baseCurrency g) cache
                    = Ws.spotAssets ccxt ex (baseCurrency g) (del c cache)).
Proof.
  intros N U.
  pose proof (spotAssets_unresolved ccxt ex (baseCurrency g) c
                (Ws.updateCache (Ws.totalsOf balanceData) balanceCache) N U) as S.
  assert (W : forall (b : bool) a,
             get c (if b
                    then Ws.withPositions ex
                           (Ws.spotAssets ccxt ex (baseCurrency g)
                              (Ws.updateCache (Ws.totalsOf balanceData) balanceCache))
                    else Ws.spotAssets ccxt ex (baseCurrency g)
                           (Ws.updateCache (Ws.totalsOf balanceData) balanceCache))
             = Some a -> type a = futures).
  { intros [] a.
    - now apply withPositions_get_futures.
    - rewrite S. discriminate. }
  split; [exact S|]. split; [apply W|].
  split; [|split].
  - unfold WsFund.processBalanceData, WsFund.primaryPass. simpl.
    intros a. rewrite (proj1 (fundStep_keeps ex _)). apply W.
  - unfold WsFund.compileAndUpdateBalances, WsFund.primaryPass. simpl.
    intros a. rewrite (proj1 (fundStep_keeps ex _)). apply W.
  - intros cache. unfold Ws.spotAssets. apply assetLoop_del.
    intros a. apply valueOf_unresolved; auto using unresolvable_falsy.
Qed.

(** ETH on an exchange without markets, with no alternate reachable. *)
Lemma unresolved_price_drops_asset_witness :
  "ETH" <> baseCurrency (Sample.groupOf "USD")
  /\ unresolvable Sample.noCcxt Sample.offline "ETH" "USD"
  /\ get "ETH" (balances (fst (Ws.compileAndUpdateBalances Sample.noCcxt
                                 Sample.offline (Sample.snapshot [("ETH", 2)])
                                 (Sample.groupOf "USD") []))) = None.
Proof.
  assert (N : "ETH" <> baseCurrency (Sample.groupOf "USD")) by discriminate.
  assert (U : unresolvable Sample.noCcxt Sample.offline "ETH" "USD").
  { left. split; [reflexivity|]. intros i _. exact I. }
  split; [exact N|]. split; [exact U|].
  exact (proj1 (unresolved_price_drops_asset Sample.noCcxt Sample.offline
                  (Sample.snapshot [("ETH", 2)]) (Sample.groupOf "USD") []
                  "ETH" N U)).
Defined.

(** The REST monitor skips such a currency as well, whether its price is
    falsy or the pass is left at its ticker fetch. *)
Lemma rest_spotLoop_get_skipped ccxt ex base c entries : forall assets,
  c <> base ->
  (forall v, Rest.resolvePrice ccxt ex c base = Ok v -> truthy v = false) ->
  get c (fst (Rest.spotLoop ccxt ex base entries assets)) = get c assets.
Proof.
  induction entries as [|[k amt] rest IH]; intros assets N U; [reflexivity|].
  cbn [Rest.spotLoop].
  destruct (truthyNum amt && PrimFloat.ltb 1e-8 (abs amt)); [|now apply IH].
  destruct (String.eqb k c) eqn:E.
  - apply String.eqb_eq in E. subst k.
    apply String.eqb_neq in N. rewrite N. cbn [negb].
    apply String.eqb_neq in N.
    destruct (Rest.resolvePrice ccxt ex c base) as [v|m]; [|reflexivity].
    pose proof (U v eq_refl) as Uv.
    destruct v as [| |p]; try (now apply IH).
    rewrite Uv. now apply IH.
  - apply String.eqb_neq in E.
    assert (E' : c <> k) by congruence.
    destruct (negb (String.eqb k base)).
    + destruct (Rest.resolvePrice ccxt ex k base) as [v|m]; [|reflexivity].
      destruct v as [| |p]; try (now apply IH).
      destruct (truthy (Num p)); [|now apply IH].
      rewrite IH by assumption. now apply get_set_other.
    + rewrite IH by assumption. now apply get_set_other.
Qed.

(** ** Valuation-currency identity *)

Lemma withPositions_get_other ex c acc :
  noPositionNamed c ex -> get c (Ws.withPositions ex acc) = get c acc.
Proof.
  intros N. unfold Ws.withPositions.
  destruct (fetchPositions ex) as [ps|] eqn:F; [|reflexivity].
  apply positionLoop_get_other. now apply N.
Qed.

Lemma rest_positionLoop_get_other ex c ps : forall acc,
  ~ In c (map pos_symbol ps) ->
  get c (Rest.positionLoop ex ps acc) = get c acc.
Proof.
  induction ps as [|p rest IH]; simpl; intros acc N; auto.
  assert (N1 : c <> pos_symbol p) by (intros ->; tauto).
  assert (N2 : ~ In c (map pos_symbol rest)) by tauto.
  destruct (strictNeqZero (contracts p)); [|now apply IH].
  destruct (fetchTicker ex (pos_symbol p)) as [t|m]; [|reflexivity].
  rewrite IH by assumption. now apply get_set_other.
Qed.

Lemma rest_withPositions_get_other ex c acc :
  noPositionNamed c ex -> get c (Rest.withPositions ex acc) = get c acc.
Proof.
  intros N. unfold Rest.withPositions.
  destruct (fetchPositions ex) as [ps|] eqn:F; [|reflexivity].
  apply rest_positionLoop_get_other. now apply N.
Qed.

(** The valuation currency is valued at its amount, whatever the exchange
    and the alternates answer. *)
Lemma valueOf_base ccxt ex base amt : Ws.valueOf ccxt ex base base amt = Some amt.
Proof.
  unfold Ws.valueOf. now rewrite String.eqb_refl.
Qed.

(** In the cache-based monitors a holding in the valuation currency that the
    snapshot reports above the merge threshold and above dust is published
    at its amount, whatever else the snapshot and the cache hold and whatever
    the exchange and the alternates answer. *)
Lemma cache_passes_valuation_currency ccxt ex totals g balanceCache amt pass :
  pass = Ws.processBalanceData \/ pass = Ws.compileAndUpdateBalances
  \/ pass = WsFund.processBalanceData
  \/ pass = WsFund.compileAndUpdateBalances ->
  wf totals -> wf balanceCache ->
  get (baseCurrency g) totals = Some amt ->
  truthyNum amt && PrimFloat.ltb 1e-6 (abs amt) = true ->
  isDust amt = false ->
  noPositionNamed (baseCurrency g) ex ->
  get (baseCurrency g)
    (balances (fst (pass ccxt ex (mkBalanceData (Some totals)) g balanceCache)))
  = Some (mkAsset (baseCurrency g) amt amt spot).
Proof.
  intros Hp Wt Wc G K D N.
  destruct (cache_pass_shape ccxt ex (mkBalanceData (Some totals)) g
              balanceCache pass Hp) as (b & Hb & _).
  rewrite Hb.
  assert (S : get (baseCurrency g)
                (Ws.spotAssets ccxt ex (baseCurrency g)
                   (Ws.updateCache (Ws.totalsOf (mkBalanceData (Some totals)))
                      balanceCache))
              = Some (mkAsset (baseCurrency g) amt amt spot)).
  { rewrite spotAssets_get by now apply wf_updateCache.
    cbn [Ws.totalsOf bd_total].
    rewrite updateCache_get by assumption. rewrite G, K.
    now rewrite valueOf_base, D. }
  destruct b; [rewrite withPositions_get_other by assumption|]; exact S.
Qed.

Lemma rest_spotLoop_get_absent ccxt ex base c entries : forall assets,
  ~ In c (keys entries) ->
  get c (fst (Rest.spotLoop ccxt ex base entries assets)) = get c assets.
Proof.
  induction entries as [|[k amt] rest IH]; intros assets N; [reflexivity|].
  assert (N1 : c <> k) by (intros ->; apply N; now left).
  assert (N2 : ~ In c (keys rest)) by (intros I; apply N; now right).
  cbn [Rest.spotLoop].
  destruct (truthyNum amt && PrimFloat.ltb 1e-8 (abs amt)); [|now apply IH].
  destruct (negb (String.eqb k base)).
  - destruct (Rest.resolvePrice ccxt ex k base) as [v|m]; [|reflexivity].
    destruct v as [| |p]; try (now apply IH).
    destruct (truthy (Num p)); [|now apply IH].
    rewrite IH by assumption. now apply get_set_other.
  - rewrite IH by assumption. now apply get_set_other.
Qed.

Lemma rest_spotLoop_base ccxt ex base amt entries : forall assets,
  wf entries -> In (base, amt) entries ->
  truthyNum amt && PrimFloat.ltb 1e-8 (abs amt) = true ->
  snd (Rest.spotLoop ccxt ex base entries assets) = Rest.Done ->
  get base (fst (Rest.spotLoop ccxt ex base entries assets))
  = Some (mkAsset base amt amt spot).
Proof.
  unfold wf.
  induction entries as [|[k a] rest IH]; intros assets W I K; [destruct I|].
  cbn [keys map fst] in W. inversion W as [|? ? Hn W']; subst.
  cbn [Rest.spotLoop].
  destruct I as [[= -> ->] | I].
  - rewrite K, String.eqb_refl. cbn [negb]. intros _.
    rewrite rest_spotLoop_get_absent by exact Hn. apply get_set_same.
  - assert (Nk : k <> base).
    { intros ->. apply Hn. change base with (fst (base, amt)).
      now apply in_map. }
    apply String.eqb_neq in Nk. rewrite Nk. cbn [negb].
    destruct (truthyNum a && PrimFloat.ltb 1e-8 (abs a)); [|now apply IH].
    destruct (Rest.resolvePrice ccxt ex k base) as [v|m]; [|discriminate].
    destruct v as [| |p]; try (now apply IH).
    destruct (truthy (Num p)); now apply IH.
Qed.

(** The REST monitor does the same in every pass that returns. *)
Lemma rest_completed_valuation_currency ccxt ex totals g amt :
  wf totals ->
  get (baseCurrency g) totals = Some amt ->
  truthyNum amt && PrimFloat.ltb 1e-8 (abs amt) = true ->
  noPositionNamed (baseCurrency g) ex ->
  snd (Rest.processBalanceData ccxt ex (mkBalanceData (Some totals)) g)
  = Rest.Done ->
  get (baseCurrency g)
    (balances (fst (Rest.processBalanceData ccxt ex
                      (mkBalanceData (Some totals)) g)))
  = Some (mkAsset (baseCurrency g) amt amt spot).
Proof.
  intros W G K N. unfold Rest.processBalanceData. cbn [Ws.totalsOf bd_total].
  assert (I : In (baseCurrency g, amt) (Rest.usdcFirst totals))
    by (apply get_some_in; now rewrite usdcFirst_get).
  pose proof (rest_spotLoop_base ccxt ex (baseCurrency g) amt
                (Rest.usdcFirst totals) [] (wf_usdcFirst totals W) I K) as L.
  destruct (Rest.spotLoop ccxt ex (baseCurrency g) (Rest.usdcFirst totals) [])
    as [assets [|m]]; cbn [fst snd] in *; [|discriminate].
  intros _. cbn [balances Rest.setTotal Rest.setBalances].
  destruct (has_fetchPositions ex);
    [rewrite rest_withPositions_get_other by assumption|]; now apply L.
Qed.

(** C5 (failing input): the snapshot [{ETH: 2, USD: 100}] of a group valued
    in USD, on an exchange that lists [ETH/USD] and fails its ticker call.
    The pass of [ws.js] turns to the alternates, finds none and publishes
    USD at 100. The pass of [rest.js] is left by the exception of the ticker
    fetch when it values ETH, before the USD entry is reached: no USD asset
    is published. *)
Theorem rest_abort_drops_valuation_currency :
  let balanceData := Sample.snapshot [("ETH", 2); ("USD", 100)] in
  get "USD" (Ws.totalsOf balanceData) = Some 100
  /\ get "USD"
       (balances (fst (Ws.processBalanceData Sample.noCcxt Sample.flaky
                         balanceData (Sample.groupOf "USD") [])))
     = Some (mkAsset "USD" 100 100 spot)
  /\ Rest.processBalanceData Sample.noCcxt Sample.flaky balanceData
       (Sample.groupOf "USD")
     = (mkGroup "main" [] "USD" 0 None None, Rest.Threw "NetworkError")
  /\ get "USD"
       (balances (fst (Rest.processBalanceData Sample.noCcxt Sample.flaky
                         balanceData (Sample.groupOf "USD"))))
     = None.
Proof.
  repeat split; vm_compute; reflexivity.
Qed.

(** ** Price inversion *)

Lemma findMarket_flag ex base pairs m inv :
  findMarket ex base pairs = Some (m, inv) ->
  inv = invertPriceOf base m /\ markets ex m = true /\ In m pairs.
Proof.
  induction pairs as [|p rest IH]; simpl; [discriminate|].
  destruct (markets ex p) eqn:M.
  - intros [= <- <-]. auto.
  - intros H. destruct (IH H) as (? & ? & ?). auto.
Qed.

(** C6: when the candidate matched on the primary exchange carries the
    valuation currency, USD or USDT as its numerator, the price is the
    inverse of the ticker price and the asset is valued at
    [amount * (1 / ticker)]; with [USD/ETH] the only market, last traded at
    0.0004, ETH resolves to 2500 and 2 ETH are published with [baseValue]
    5000. *)
Theorem inverted_pair_price :
  (forall ccxt ex c base m inv t amt,
      c <> base ->
      findMarket ex base (possiblePairs c base) = Some (m, inv) ->
      invertPriceOf base m = true ->
      fetchTicker ex m = Ok t ->
      Ws.resolvePrice ccxt ex c base = Num (1 / toNumber (lastOrClose t))
      /\ Rest.resolvePrice ccxt ex c base
         = Ok (Num (1 / toNumber (lastOrClose t)))
      /\ (truthyNum (1 / toNumber (lastOrClose t)) = true ->
          Ws.valueOf ccxt ex base c amt
          = Some (amt * (1 / toNumber (lastOrClose t)))))
  /\ findMarket Sample.usdEth "USD" (possiblePairs "ETH" "USD")
     = Some ("USD/ETH", true)
  /\ Ws.resolvePrice Sample.noCcxt Sample.usdEth "ETH" "USD" = Num 2500
  /\ get "ETH" (balances (fst (Ws.processBalanceData Sample.noCcxt Sample.usdEth
                                 (Sample.snapshot [("ETH", 2)])
                                 (Sample.groupOf "USD") [])))
     = Some (mkAsset "ETH" 2 5000 spot)
  /\ get "ETH" (balances (fst (Ws.compileAndUpdateBalances Sample.noCcxt
                                 Sample.usdEth (Sample.snapshot [("ETH", 2)])
                                 (Sample.groupOf "USD") [])))
     = Some (mkAsset "ETH" 2 5000 spot).
Proof.
  split; [|repeat split; vm_compute; reflexivity].
  intros ccxt ex c base m inv t amt N F I T.
  destruct (findMarket_flag _ _ _ _ _ F) as (E & _ & _).
  rewrite I in E. subst inv.
  assert (R : Ws.resolvePrice ccxt ex c base
              = Num (1 / toNumber (lastOrClose t)))
    by (unfold Ws.resolvePrice; rewrite F, T; reflexivity).
  split; [exact R|]. split.
  - unfold Rest.resolvePrice. rewrite F, T. reflexivity.
  - intros Tr. unfold Ws.valueOf.
    apply String.eqb_neq in N. rewrite N, R. cbn [negb truthy]. now rewrite Tr.
Qed.

(** 2 ETH on the exchange that lists [USD/ETH] alone. *)
Lemma inverted_pair_price_witness :
  "ETH" <> "USD"
  /\ Ws.valueOf Sample.noCcxt Sample.usdEth "USD" "ETH" 2 = Some (2 * 2500).
Proof.
  assert (N : "ETH" <> "USD") by discriminate.
  split; [exact N|].
  exact (proj2 (proj2 (proj1 inverted_pair_price Sample.noCcxt Sample.usdEth
                         "ETH" "USD" "USD/ETH" true
                         (mkTicker (Some 0.0004) None) 2
                         N eq_refl eq_refl eq_refl)) eq_refl).
Defined.

(** ** Alternate price discovery *)

(** In [ws.js] the alternates are asked in order and the first answer is
    inverted under the same rule as on the primary exchange. *)
Lemma ws_alternate_inverts ccxt c base before exchangeId after alt m inv t :
  (forall i, In i before -> altFails ccxt c base i) ->
  ccxt exchangeId = Some alt ->
  loadMarkets alt = Ok tt ->
  findMarket alt base (possiblePairs c base) = Some (m, inv) ->
  fetchTicker alt m = Ok t ->
  Ws.altPriceFrom ccxt c base (before ++ exchangeId :: after)
  = if invertPriceOf base m then Num (1 / toNumber (lastOrClose t))
    else ofOption (lastOrClose t).
Proof.
  intros Hb Hc Hl Hf Ht.
  destruct (findMarket_flag _ _ _ _ _ Hf) as (-> & _ & _).
  induction before as [|i rest IH].
  - cbn [app Ws.altPriceFrom]. rewrite Hc, Hl, Hf, Ht. reflexivity.
  - assert (Hi : altFails ccxt c base i) by (apply Hb; now left).
    assert (Hr : Ws.altPriceFrom ccxt c base (rest ++ exchangeId :: after)
                 = if invertPriceOf base m
                   then Num (1 / toNumber (lastOrClose t))
                   else ofOption (lastOrClose t))
      by (apply IH; intros; apply Hb; now right).
    unfold altFails in Hi. cbn [app Ws.altPriceFrom].
    destruct (ccxt i) as [alt'|]; [|exact Hr].
    destruct (loadMarkets alt'); [|exact Hr].
    destruct (findMarket alt' base (possiblePairs c base)) as [[cand inv']|];
      [|exact Hr].
    destruct (fetchTicker alt' cand); [contradiction | exact Hr].
Qed.

(** C7 (failing input): binance, the first alternate, lists only [USD/ETH],
    last traded at 0.0004. The alternate lookup of [ws.js] inverts and
    answers 2500; that of [rest.js] hands back 0.0004, and its pass values
    2 ETH at 0.0008 USD. *)
Theorem rest_alternate_price_not_inverted :
  findMarket Sample.usdEth "USD" (possiblePairs "ETH" "USD")
  = Some ("USD/ETH", true)
  /\ Ws.fetchPriceFromAlternativeExchange Sample.binanceOnly "ETH" "USD"
     = Num 2500
  /\ Rest.fetchPriceFromAlternativeExchange Sample.binanceOnly "ETH" "USD"
     = Num 0.0004
  /\ Rest.processBalanceData Sample.binanceOnly Sample.offline
       (Sample.snapshot [("ETH", 2)]) (Sample.groupOf "USD")
     = (mkGroup "main" [("ETH", mkAsset "ETH" 2 0.0008 spot)] "USD" 0.0008
                None None, Rest.Done).
Proof.
  repeat split; vm_compute; reflexivity.
Qed.

(** ** Futures positions *)

(** With pairwise distinct instrument symbols and no failing ticker call,
    the key of a position holds its futures asset exactly when the position
    has contracts, a known market and a PnL that is not dust. *)
Lemma positionLoop_get_in ex p ps : forall acc,
  NoDup (map pos_symbol ps) ->
  (forall q, In q ps -> exists t, fetchTicker ex (pos_symbol q) = Ok t) ->
  In p ps ->
  get (pos_symbol p) (Ws.positionLoop ex ps acc) =
  if strictNeqZero (contracts p) && markets ex (pos_symbol p)
     && negb (isDust (upnlOf p))
  then Some (futuresAsset p)
  else get (pos_symbol p) acc.
Proof.
  induction ps as [|q rest IH]; intros acc D T I; [destruct I|].
  cbn [map] in D. inversion D as [|? ? Hn D']; subst.
  destruct (T q (or_introl eq_refl)) as [t Ht].
  assert (T' : forall r, In r rest -> exists t, fetchTicker ex (pos_symbol r) = Ok t)
    by (intros; apply T; now right).
  cbn [Ws.positionLoop]. rewrite Ht.
  destruct I as [-> | I].
  - destruct (strictNeqZero (contracts p)); cbn [andb];
      [|now apply positionLoop_get_other].
    destruct (markets ex (pos_symbol p)); cbn [andb];
      [|now apply positionLoop_get_other].
    destruct (isDust (upnlOf p)); cbn [negb].
    + now apply positionLoop_get_other.
    + rewrite positionLoop_get_other by assumption. apply get_set_same.
  - assert (N : pos_symbol p <> pos_symbol q).
    { intros E. apply Hn. rewrite <- E. now apply in_map. }
    destruct (strictNeqZero (contracts q)); [|now apply IH].
    destruct (markets ex (pos_symbol q)); [|now apply IH].
    destruct (isDust (upnlOf q)); [now apply IH|].
    rewrite IH by assumption. now rewrite get_set_other.
Qed.



(** The push pass of [ws.js] reads no positions at all. *)
Lemma ws_push_ignores_positions :
  get Sample.perp
    (balances (fst (Ws.compileAndUpdateBalances Sample.noCcxt
                      (Sample.swapWith (-5)) (Sample.snapshot [])
                      (Sample.groupOf "USDT") []))) = None.
Proof. reflexivity. Qed.







(** ** Failed snapshot fetch *)

(** A throwing [fetchBalance] makes the body of every [fetchCompleteBalance]
    throw, whichever branch is taken. *)
Lemma fetchBalance_throws_bodies ex :
  (forall t, exists m, fetchBalance ex t = Throw m) ->
  (forall gateioType, exists m, Ws.fetchBalanceBody gateioType ex = Throw m)
  /\ exists m, Rest.fetchBalanceBody ex = Throw m.
Proof.
  intros H. split; [intros gt|].
  - unfold Ws.fetchBalanceBody.
    destruct (String.eqb (id ex) "coinbase").
    + destruct (H None) as [m ->]. eauto.
    + destruct (String.eqb (id ex) "gateio"); apply H.
  - unfold Rest.fetchBalanceBody.
    destruct (String.eqb (id ex) "coinbase").
    + destruct (H None) as [m ->]. eauto.
    + destruct (String.eqb (id ex) "gateio"); apply H.
Qed.

(** On coinbase, in [ws.js], a throwing [fetchAccounts] does the same. *)
Lemma fetchAccounts_throws_body ex gateioType m :
  id ex = "coinbase" -> fetchAccounts ex = Throw m ->
  exists m', Ws.fetchBalanceBody gateioType ex = Throw m'.
Proof.
  intros I A. unfold Ws.fetchBalanceBody. rewrite I, A.
  change ("coinbase" =? "coinbase")%string with true. cbv iota.
  destruct (fetchBalance ex None); eauto.
Qed.

(** A cached holding that can be valued above dust is published by a pass
    over the empty snapshot. *)
Lemma cached_holding_published ccxt ex g balanceCache c a v :
  wf balanceCache ->
  get c balanceCache = Some a ->
  Ws.valueOf ccxt ex (baseCurrency g) c a = Some v ->
  isDust v = false ->
  noPositionNamed c ex ->
  get c (balances (fst (Ws.processBalanceData ccxt ex emptySnapshot g
                          balanceCache))) = Some (mkAsset c a v spot).
Proof.
  intros W G V D N.
  unfold Ws.processBalanceData. cbn [fst Ws.publish balances].
  change (Ws.updateCache (Ws.totalsOf emptySnapshot) balanceCache)
    with balanceCache.
  assert (S : get c (Ws.spotAssets ccxt ex (baseCurrency g) balanceCache)
              = Some (mkAsset c a v spot))
    by (rewrite spotAssets_get by assumption; now rewrite G, V, D).
  destruct (has_fetchPositions ex); [|exact S].
  now rewrite withPositions_get_other.
Qed.

(** C9: whatever the body of [fetchCompleteBalance] throws, the function
    returns the empty snapshot; the polling turn of a cache-based monitor
    then leaves the cache as it was and publishes the valuation of that cache
    (with the open positions where the pass reads them), so that every
    cached holding that can be valued stays published. *)
Theorem failed_fetch_keeps_cache ccxt ex g balanceCache :
  ((exists m, Ws.fetchBalanceBody (Some "swap") ex = Throw m) ->
   let pass := Ws.pollTurn ccxt ex g balanceCache in
   Ws.fetchCompleteBalance ex = emptySnapshot
   /\ snd pass = balanceCache
   /\ balances (fst pass)
      = (if has_fetchPositions ex
         then Ws.withPositions ex
                (Ws.spotAssets ccxt ex (baseCurrency g) balanceCache)
         else Ws.spotAssets ccxt ex (baseCurrency g) balanceCache)
   /\ forall c a v,
        wf balanceCache -> get c balanceCache = Some a ->
        Ws.valueOf ccxt ex (baseCurrency g) c a = Some v ->
        isDust v = false -> noPositionNamed c ex ->
        get c (balances (fst pass)) = Some (mkAsset c a v spot))
  /\ ((exists m, Ws.fetchBalanceBody (Some (WsFund.gateioType ex)) ex = Throw m) ->
      let pass := WsFund.pollTurn ccxt ex g balanceCache in
      WsFund.fetchCompleteBalance ex = emptySnapshot
      /\ snd pass = balanceCache
      /\ balances (fst pass)
         = (if has_fetchPositions ex && WsFund.isSwap ex
            then Ws.withPositions ex
                   (Ws.spotAssets ccxt ex (baseCurrency g) balanceCache)
            else Ws.spotAssets ccxt ex (baseCurrency g) balanceCache))
  /\ ((exists m, Rest.fetchBalanceBody ex = Throw m) ->
      Rest.fetchCompleteBalance ex = emptySnapshot).
Proof.
  split; [|split].
  - intros [m E] pass.
    assert (F : Ws.fetchCompleteBalance ex = emptySnapshot)
      by (unfold Ws.fetchCompleteBalance; now rewrite E).
    subst pass. unfold Ws.pollTurn. rewrite F.
    split; [reflexivity|]. split; [reflexivity|]. split; [reflexivity|].
    intros c a v. apply cached_holding_published.
  - intros [m E] pass.
    assert (F : WsFund.fetchCompleteBalance ex = emptySnapshot)
      by (unfold WsFund.fetchCompleteBalance; now rewrite E).
    subst pass. unfold WsFund.pollTurn. rewrite F.
    split; [reflexivity|]. split; [reflexivity|].
    unfold WsFund.processBalanceData, WsFund.primaryPass. cbn [fst].
    rewrite (proj1 (fundStep_keeps ex _)). reflexivity.
  - intros [m E]. unfold Rest.fetchCompleteBalance. now rewrite E.
Qed.

(** 100 USD are cached when the fetch of the next turn fails. *)
Lemma failed_fetch_keeps_cache_witness :
  (exists m, Ws.fetchBalanceBody (Some "swap") Sample.offline = Throw m)
  /\ Ws.fetchCompleteBalance Sample.offline = emptySnapshot
  /\ get "USD" (balances (fst (Ws.pollTurn Sample.noCcxt Sample.offline
                                 (Sample.groupOf "USD") [("USD", 100)])))
     = Some (mkAsset "USD" 100 100 spot).
Proof.
  assert (E : exists m, Ws.fetchBalanceBody (Some "swap") Sample.offline = Throw m)
    by (eexists; reflexivity).
  assert (W : wf [("USD", 100)])
    by (constructor; [simpl; tauto | constructor]).
  assert (N : noPositionNamed "USD" Sample.offline)
    by (intros ps H; discriminate H).
  pose proof (proj1 (failed_fetch_keeps_cache Sample.noCcxt Sample.offline
                       (Sample.groupOf "USD") [("USD", 100)]) E) as H.
  cbv zeta in H. destruct H as (H1 & _ & _ & H4).
  split; [exact E|]. split; [exact H1|].
  exact (H4 "USD" 100 100 W eq_refl eq_refl eq_refl N).
Defined.

(** ** Fund accounts *)

Lemma fold_left_pointwise {A B : Type} (f f' : A -> B -> A) l : forall a,
  (forall a b, f a b = f' a b) -> fold_left f l a = fold_left f' l a.
Proof.
  induction l as [|b l IH]; simpl; intros a H; auto.
  rewrite H. now apply IH.
Qed.

(** The primary part of a pass reads the markets, the tickers and the
    positions of the exchange, and none of the supplementary calls. *)
Section Supplementary.
Variables (ccxt : Ccxt) (ex : Exchange) (lm : result unit)
          (fb : option string -> result BalanceData)
          (pe : result (list Lend)).

Lemma findMarket_supplementary base pairs :
  findMarket (withSupplementary ex lm fb pe) base pairs
  = findMarket ex base pairs.
Proof.
  induction pairs as [|p rest IH]; simpl; auto. now rewrite IH.
Qed.

Lemma spotAssets_supplementary base balanceCache :
  Ws.spotAssets ccxt (withSupplementary ex lm fb pe) base balanceCache
  = Ws.spotAssets ccxt ex base balanceCache.
Proof.
  unfold Ws.spotAssets. apply fold_left_pointwise.
  intros acc [c amt]. unfold Ws.assetStep, Ws.valueOf, Ws.resolvePrice.
  now rewrite findMarket_supplementary.
Qed.

Lemma positionLoop_supplementary ps : forall acc,
  Ws.positionLoop (withSupplementary ex lm fb pe) ps acc
  = Ws.positionLoop ex ps acc.
Proof.
  induction ps as [|p rest IH]; simpl; intros acc; auto.
  now rewrite !IH.
Qed.

Lemma primaryPass_supplementary balanceData g balanceCache :
  WsFund.primaryPass ccxt (withSupplementary ex lm fb pe) balanceData g
    balanceCache
  = WsFund.primaryPass ccxt ex balanceData g balanceCache.
Proof.
  unfold WsFund.primaryPass, Ws.withPositions.
  rewrite spotAssets_supplementary.
  change (has_fetchPositions (withSupplementary ex lm fb pe))
    with (has_fetchPositions ex).
  change (WsFund.isSwap (withSupplementary ex lm fb pe))
    with (WsFund.isSwap ex).
  change (fetchPositions (withSupplementary ex lm fb pe))
    with (fetchPositions ex).
  destruct (fetchPositions ex) as [ps|]; [|reflexivity].
  now rewrite positionLoop_supplementary.
Qed.
End Supplementary.

Lemma endsWith_fund_flag account cls :
  isFundAccount cls = false ->
  (isFundAccount (WsFund.withAccount account cls) = true
   <-> endsWith (WsFund.acct_n account) " Fund" = true
       /\ WsFund.acct_defaultType account = Some "swap").
Proof.
  intros F. unfold WsFund.withAccount, WsFund.fundTest. cbn [isFundAccount].
  destruct (endsWith (WsFund.acct_n account) " Fund"); cbn [andb].
  - destruct (WsFund.acct_defaultType account) as [t|].
    + destruct (String.eqb t "swap") eqn:E.
      * apply String.eqb_eq in E. subst t. tauto.
      * apply String.eqb_neq in E. rewrite F.
        split; [discriminate | intros [_ [= ->]]; congruence].
    + rewrite F. split; [discriminate | intros [_ H]; discriminate H].
  - rewrite F. split; [discriminate | intros [H _]; discriminate H].
Qed.

Lemma fundPass_fundStep ccxt ex balanceData g balanceCache pass :
  pass = WsFund.processBalanceData \/ pass = WsFund.compileAndUpdateBalances ->
  fst (pass ccxt ex balanceData g balanceCache)
  = WsFund.fundStep ex
      (fst (WsFund.primaryPass ccxt ex balanceData g balanceCache)).
Proof.
  intros [-> | ->];
    unfold WsFund.processBalanceData, WsFund.compileAndUpdateBalances;
    destruct (WsFund.primaryPass ccxt ex balanceData g balanceCache);
    reflexivity.
Qed.

(** The earn balance entry by entry: a lending entry with a positive amount
    adds its amount when it is USDT or USDC, its amount at the last price of
    its USDT pair otherwise, and nothing when that ticker fails. *)
Lemma earnLoop_fold ex response : forall totalUSDTValue,
  WsFund.earnLoop ex response totalUSDTValue
  = fold_left
      (fun acc lend =>
         if PrimFloat.ltb 0 (lend_amount lend) then
           if String.eqb (lend_currency lend) "USDT"
              || String.eqb (lend_currency lend) "USDC"
           then acc + lend_amount lend
           else match fetchTicker ex (lend_currency lend ++ "/USDT") with
                | Ok ticker => acc + lend_amount lend * toNumber (last ticker)
                | Throw _ => acc
                end
         else acc)
      response totalUSDTValue.
Proof.
  induction response as [|lend rest IH]; intros acc;
    cbn [WsFund.earnLoop fold_left]; [reflexivity|].
  destruct (PrimFloat.ltb 0 (lend_amount lend)); [|apply IH].
  destruct (String.eqb (lend_currency lend) "USDT"
            || String.eqb (lend_currency lend) "USDC"); [apply IH|].
  destruct (fetchTicker ex (lend_currency lend ++ "/USDT")); apply IH.
Qed.

(** C10: a connection is a fund account exactly when its account name ends
    with " Fund" and its default type is "swap". For such a connection both
    passes attach [spotBalance] and [earnBalance] to the group record after
    the balances and the total are published; these two are the ones of the
    primary part of the pass and do not depend on how the supplementary
    calls answer. When the spot balance is fetched, [spotBalance] is the
    amount it reports for the valuation currency, and 0 when it reports
    none; on gateio, when the markets and the lending entries are fetched,
    [earnBalance] is the sum over the entries with a positive amount of the
    amount for USDT and USDC and of the amount at the last price of the USDT
    pair for the others, an entry whose ticker fails counting for nothing;
    on another exchange it is 0. A failing supplementary call yields 0, and
    a connection that is no fund account attaches nothing. *)
Theorem fund_account_supplementary :
  (forall account cls,
      isFundAccount cls = false ->
      (isFundAccount (WsFund.withAccount account cls) = true
       <-> endsWith (WsFund.acct_n account) " Fund" = true
           /\ WsFund.acct_defaultType account = Some "swap"))
  /\ (forall ccxt ex balanceData g balanceCache pass,
         pass = WsFund.processBalanceData
         \/ pass = WsFund.compileAndUpdateBalances ->
         isFundAccount ex = true ->
         let g' := fst (pass ccxt ex balanceData g balanceCache) in
         let primary := fst (WsFund.primaryPass ccxt ex balanceData g
                               balanceCache) in
         balances g' = balances primary
         /\ total g' = total primary
         /\ total g' = sumBaseValue (balances g')
         /\ spotBalance g' = Some (WsFund.fetchSpotBalance ex (baseCurrency g))
         /\ earnBalance g'
            = Some (if String.eqb (id ex) "gateio"
                    then WsFund.fetchGateioEarnBalance ex else 0)
         /\ forall lm fb pe,
              let other := fst (pass ccxt (withSupplementary ex lm fb pe)
                                  balanceData g balanceCache) in
              balances other = balances g' /\ total other = total g')
  /\ (forall ccxt ex balanceData g balanceCache pass spotData totals,
         pass = WsFund.processBalanceData
         \/ pass = WsFund.compileAndUpdateBalances ->
         isFundAccount ex = true ->
         fetchBalance ex (Some "spot") = Ok spotData ->
         bd_total spotData = Some totals ->
         let g' := fst (pass ccxt ex balanceData g balanceCache) in
         (forall x, get (baseCurrency g) totals = Some x ->
                    truthyNum x = true -> spotBalance g' = Some x)
         /\ (get (baseCurrency g) totals = None -> spotBalance g' = Some 0))
  /\ (forall ccxt ex balanceData g balanceCache pass u response,
         pass = WsFund.processBalanceData
         \/ pass = WsFund.compileAndUpdateBalances ->
         isFundAccount ex = true ->
         id ex = "gateio" ->
         loadMarkets ex = Ok u ->
         privateEarnGetUniLends ex = Ok response ->
         earnBalance (fst (pass ccxt ex balanceData g balanceCache))
         = Some (fold_left
                   (fun acc lend =>
                      if PrimFloat.ltb 0 (lend_amount lend) then
                        if String.eqb (lend_currency lend) "USDT"
                           || String.eqb (lend_currency lend) "USDC"
                        then acc + lend_amount lend
                        else match fetchTicker ex
                                     (lend_currency lend ++ "/USDT") with
                             | Ok ticker =>
                                 acc + lend_amount lend
                                       * toNumber (last ticker)
                             | Throw _ => acc
                             end
                      else acc)
                   response 0))
  /\ (forall ccxt ex balanceData g balanceCache pass,
         pass = WsFund.processBalanceData
         \/ pass = WsFund.compileAndUpdateBalances ->
         isFundAccount ex = true ->
         id ex <> "gateio" ->
         earnBalance (fst (pass ccxt ex balanceData g balanceCache)) = Some 0)
  /\ (forall ex base m,
         fetchBalance ex (Some "spot") = Throw m ->
         WsFund.fetchSpotBalance ex base = 0)
  /\ (forall ex m,
         loadMarkets ex = Throw m \/ privateEarnGetUniLends ex = Throw m ->
         WsFund.fetchGateioEarnBalance ex = 0)
  /\ (forall ex g, isFundAccount ex = false -> WsFund.fundStep ex g = g)
  /\ (let g' := fst (WsFund.processBalanceData Sample.noCcxt Sample.fundWorking
                       (Sample.snapshot [("USDT", 250)])
                       (Sample.groupOf "USDT") []) in
      balances g' = [("USDT", mkAsset "USDT" 250 250 spot)]
      /\ total g' = 250
      /\ spotBalance g' = Some 75
      /\ earnBalance g' = Some 100).
Proof.
  split; [exact endsWith_fund_flag|].
  split; [|split; [|split; [|split; [|split; [|split; [|split]]]]]].
  - intros ccxt ex balanceData g balanceCache pass Hp Hf g' primary.
    subst g' primary. rewrite (fundPass_fundStep _ _ _ _ _ _ Hp).
    destruct (fundStep_keeps ex
                (fst (WsFund.primaryPass ccxt ex balanceData g balanceCache)))
      as (Hb & Ht & _).
    rewrite Hb, Ht.
    split; [reflexivity|]. split; [reflexivity|]. split; [reflexivity|].
    split; [|split].
    + unfold WsFund.fundStep. rewrite Hf. reflexivity.
    + unfold WsFund.fundStep. rewrite Hf. reflexivity.
    + intros lm fb pe other. subst other.
      rewrite (fundPass_fundStep _ _ _ _ _ _ Hp).
      destruct (fundStep_keeps (withSupplementary ex lm fb pe)
                  (fst (WsFund.primaryPass ccxt (withSupplementary ex lm fb pe)
                          balanceData g balanceCache)))
        as (Hb' & Ht' & _).
      rewrite Hb', Ht', primaryPass_supplementary. split; reflexivity.
  - intros ccxt ex balanceData g balanceCache pass spotData totals Hp Hf
           Fs Ft g'.
    subst g'. rewrite (fundPass_fundStep _ _ _ _ _ _ Hp).
    unfold WsFund.fundStep. rewrite Hf.
    cbn [spotBalance WsFund.primaryPass fst Ws.publish baseCurrency].
    unfold WsFund.fetchSpotBalance. rewrite Fs, Ft. split.
    + intros x G T. now rewrite G, T.
    + intros G. now rewrite G.
  - intros ccxt ex balanceData g balanceCache pass u response Hp Hf Hi Lm Pe.
    rewrite (fundPass_fundStep _ _ _ _ _ _ Hp).
    unfold WsFund.fundStep. rewrite Hf. cbn [earnBalance].
    rewrite Hi. cbn [String.eqb Ascii.eqb Bool.eqb andb].
    change (String.eqb "gateio" "gateio") with true. cbv iota.
    unfold WsFund.fetchGateioEarnBalance. rewrite Lm, Pe.
    now rewrite earnLoop_fold.
  - intros ccxt ex balanceData g balanceCache pass Hp Hf Hi.
    rewrite (fundPass_fundStep _ _ _ _ _ _ Hp).
    unfold WsFund.fundStep. rewrite Hf. cbn [earnBalance].
    apply String.eqb_neq in Hi. now rewrite Hi.
  - intros ex base m H. unfold WsFund.fetchSpotBalance. now rewrite H.
  - intros ex m [H | H]; unfold WsFund.fetchGateioEarnBalance; rewrite H;
      [reflexivity | destruct (loadMarkets ex); reflexivity].
  - intros ex g H. unfold WsFund.fundStep. now rewrite H.
  - repeat split; vm_compute; reflexivity.
Qed.

(** The account "Alpha Fund" on gateio: with every supplementary call failing,
    and with 75 USDT on the spot account and two lending entries. *)
Lemma fund_account_supplementary_witness :
  isFundAccount Sample.offline = false
  /\ isFundAccount (WsFund.withAccount Sample.fundAccount Sample.offline) = true
  /\ isFundAccount Sample.fundFailing = true
  /\ spotBalance (fst (WsFund.processBalanceData Sample.noCcxt
                         Sample.fundFailing (Sample.snapshot [("USDT", 250)])
                         (Sample.groupOf "USDT") [])) = Some 0
  /\ WsFund.fetchSpotBalance Sample.fundFailing "USDT" = 0
  /\ isFundAccount Sample.fundWorking = true
  /\ spotBalance (fst (WsFund.processBalanceData Sample.noCcxt
                         Sample.fundWorking (Sample.snapshot [("USDT", 250)])
                         (Sample.groupOf "USDT") [])) = Some 75
  /\ earnBalance (fst (WsFund.compileAndUpdateBalances Sample.noCcxt
                         Sample.fundWorking (Sample.snapshot [("USDT", 250)])
                         (Sample.groupOf "USDT") [])) = Some 100.
Proof.
  split; [reflexivity|].
  split.
  { apply (proj1 fund_account_supplementary Sample.fundAccount Sample.offline
             eq_refl).
    split; reflexivity. }
  split; [reflexivity|].
  split.
  { exact (proj1 (proj2 (proj2 (proj2
             (proj1 (proj2 fund_account_supplementary) Sample.noCcxt
                Sample.fundFailing (Sample.snapshot [("USDT", 250)])
                (Sample.groupOf "USDT") [] WsFund.processBalanceData
                (or_introl eq_refl) eq_refl))))). }
  split.
  { exact (proj1 (proj2 (proj2 (proj2 (proj2 (proj2
             fund_account_supplementary)))))
             Sample.fundFailing "USDT" "NetworkError" eq_refl). }
  split; [reflexivity|].
  split.
  { exact (proj1 (proj1 (proj2 (proj2 fund_account_supplementary))
                    Sample.noCcxt Sample.fundWorking
                    (Sample.snapshot [("USDT", 250)]) (Sample.groupOf "USDT")
                    [] WsFund.processBalanceData
                    (mkBalanceData (Some [("USDT", 75)])) [("USDT", 75)]
                    (or_introl eq_refl) eq_refl eq_refl eq_refl)
             75 eq_refl eq_refl). }
  rewrite (proj1 (proj2 (proj2 (proj2 fund_account_supplementary)))
             Sample.noCcxt Sample.fundWorking
             (Sample.snapshot [("USDT", 250)]) (Sample.groupOf "USDT")
             [] WsFund.compileAndUpdateBalances tt
             [mkLend "USDT" 40; mkLend "BTC" 0.001]
             (or_intror eq_refl) eq_refl eq_refl eq_refl eq_refl).
  vm_compute. reflexivity.
Defined.

(** ** Runs of a connection *)

Lemma above_updateCache totals : forall cache,
  cacheAbove cache -> cacheAbove (Ws.updateCache totals cache).
Proof.
  unfold Ws.updateCache, cacheAbove.
  induction totals as [|[k amt] rest IH]; cbn [fold_left]; intros cache F; auto.
  apply IH. unfold Ws.cacheStep.
  destruct (truthyNum amt && PrimFloat.ltb 1e-6 (abs amt)) eqn:K.
  - now apply values_set.
  - destruct (get k cache) as [cached|]; auto.
    destruct (truthyNum cached); auto. now apply values_del.
Qed.

Lemma above_truthy cache : cacheAbove cache -> cacheTruthy cache.
Proof.
  unfold cacheAbove, cacheTruthy. apply Forall_impl.
  intros a H. apply andb_true_iff in H. tauto.
Qed.

Lemma cache_pass_invariant ccxt ex balanceData g balanceCache pass l base :
  pass = Ws.processBalanceData \/ pass = Ws.compileAndUpdateBalances
  \/ pass = WsFund.processBalanceData
  \/ pass = WsFund.compileAndUpdateBalances ->
  connInvariant base (l, (g, balanceCache)) ->
  connInvariant base (l, pass ccxt ex balanceData g balanceCache).
Proof.
  intros Hp (W & A & _ & _ & B).
  destruct (cache_pass_shape ccxt ex balanceData g balanceCache pass Hp)
    as (b & Hb & Ht & Hc & Hs).
  destruct (pass ccxt ex balanceData g balanceCache) as [g' cache'].
  cbn [fst snd] in *. subst cache'.
  assert (A' : cacheAbove (Ws.updateCache (Ws.totalsOf balanceData) balanceCache))
    by now apply above_updateCache.
  split; [now apply wf_updateCache|]. split; [exact A'|].
  split; [exact Ht|]. split; [|congruence].
  unfold dustFree. rewrite Hb.
  pose proof (spotAssets_dustFree ccxt ex (baseCurrency g) _
                (above_truthy _ A')) as S.
  destruct b; [now apply withPositions_dustFree | exact S].
Qed.

Lemma turn_invariant step w s base :
  step = Conn.turn \/ step = Conn.turnFund ->
  connInvariant base s -> connInvariant base (step w s).
Proof.
  intros Hs I. destruct s as [l [g cache]].
  destruct Hs as [-> | ->]; unfold Conn.turn, Conn.turnFund, Conn.turnWith;
    destruct l.
  - destruct (Conn.t_pushed w) as [bd|m]; [|exact I].
    apply cache_pass_invariant; auto.
  - unfold Ws.pollTurn. apply cache_pass_invariant; auto.
  - destruct (Conn.t_pushed w) as [bd|m]; [|exact I].
    apply cache_pass_invariant; auto.
  - unfold WsFund.pollTurn. apply cache_pass_invariant; auto.
Qed.

Lemma run_invariant step turns base : forall s,
  step = Conn.turn \/ step = Conn.turnFund ->
  connInvariant base s -> connInvariant base (Conn.run step turns s).
Proof.
  unfold Conn.run.
  induction turns as [|w rest IH]; cbn [fold_left]; intros s Hs I; auto.
  apply IH; auto. now apply turn_invariant.
Qed.

(** X1: from the start of a connection on a new group, after any number of
    turns of its loop, whatever is pushed, fetched or answered: the cache has
    distinct keys and holds only amounts above 1e-6 in absolute value, the
    total of the group record is the sum over its assets, no published asset
    is dust, and the valuation currency is unchanged. *)
Theorem connection_run_invariant turns ex groupName base :
  connInvariant base (Conn.run Conn.turn turns (Conn.start ex groupName base))
  /\ connInvariant base
       (Conn.run Conn.turnFund turns (Conn.start ex groupName base)).
Proof.
  assert (I : connInvariant base (Conn.start ex groupName base)).
  { unfold Conn.start, connInvariant.
    repeat split; try constructor. }
  split; apply run_invariant; auto.
Qed.

Lemma run_polling step turns : forall s,
  step = Conn.turn \/ step = Conn.turnFund ->
  fst (Conn.run step turns (Ws.polling, s)) = Ws.polling.
Proof.
  unfold Conn.run.
  induction turns as [|w rest IH]; cbn [fold_left]; intros [g cache] Hs; auto.
  destruct Hs as [-> | ->]; unfold Conn.turn, Conn.turnFund, Conn.turnWith;
    [destruct (Ws.pollTurn (Conn.t_ccxt w) (Conn.t_ex w) g cache)
    |destruct (WsFund.pollTurn (Conn.t_ccxt w) (Conn.t_ex w) g cache)];
    apply IH; auto.
Qed.

(** X2: a push that throws changes neither the group record nor the cache and
    moves the connection to the polling loop, where it stays whatever
    follows: no later turn subscribes again. *)
Theorem failed_push_falls_back_to_polling w m s turns :
  Conn.t_pushed w = Throw m ->
  Conn.turn w (Ws.watching, s) = (Ws.polling, s)
  /\ Conn.turnFund w (Ws.watching, s) = (Ws.polling, s)
  /\ fst (Conn.run Conn.turn (w :: turns) (Ws.watching, s)) = Ws.polling
  /\ fst (Conn.run Conn.turnFund (w :: turns) (Ws.watching, s)) = Ws.polling.
Proof.
  intros H. destruct s as [g cache].
  assert (E1 : Conn.turn w (Ws.watching, (g, cache)) = (Ws.polling, (g, cache)))
    by (unfold Conn.turn, Conn.turnWith; now rewrite H).
  assert (E2 : Conn.turnFund w (Ws.watching, (g, cache))
               = (Ws.polling, (g, cache)))
    by (unfold Conn.turnFund, Conn.turnWith; now rewrite H).
  split; [exact E1|]. split; [exact E2|].
  unfold Conn.run. cbn [fold_left]. rewrite E1, E2.
  split; apply run_polling; auto.
Qed.

(** A failed push, then a push that would have succeeded. *)
Lemma failed_push_falls_back_to_polling_witness :
  fst (Conn.run Conn.turn
         [Conn.mkTurn Sample.noCcxt Sample.btcUsd (Throw "closed");
          Conn.mkTurn Sample.noCcxt Sample.btcUsd
            (Ok (Sample.snapshot [("BTC", 0.5)]))]
         (Ws.watching, (Sample.groupOf "USD", [])))
  = Ws.polling.
Proof.
  exact (proj1 (proj2 (proj2
           (failed_push_falls_back_to_polling
              (Conn.mkTurn Sample.noCcxt Sample.btcUsd (Throw "closed"))
              "closed" (Sample.groupOf "USD", [])
              [Conn.mkTurn Sample.noCcxt Sample.btcUsd
                 (Ok (Sample.snapshot [("BTC", 0.5)]))]
              eq_refl)))).
Defined.

(** ** The cache merge *)

Lemma set_same {A : Type} k (v : A) o : get k o = Some v -> set k v o = o.
Proof.
  induction o as [|[k' v'] o IH]; simpl; [discriminate|].
  destruct (String.eqb k k') eqn:E.
  - apply String.eqb_eq in E. now intros [= ->]; subst.
  - intros H. now rewrite IH.
Qed.

Lemma cacheStep_fixed totals cache k amt :
  wf totals -> In (k, amt) totals ->
  Ws.cacheStep (Ws.updateCache totals cache) (k, amt)
  = Ws.updateCache totals cache.
Proof.
  intros W I.
  pose proof (updateCache_get k totals cache W) as G.
  rewrite (in_get k amt totals W I) in G.
  unfold Ws.cacheStep.
  destruct (truthyNum amt && PrimFloat.ltb 1e-6 (abs amt)).
  - now apply set_same.
  - rewrite G. destruct (get k cache) as [cached|]; auto.
    destruct (truthyNum cached) eqn:T; auto. now rewrite T.
Qed.

Lemma updateCache_idempotent totals cache :
  wf totals ->
  Ws.updateCache totals (Ws.updateCache totals cache)
  = Ws.updateCache totals cache.
Proof.
  intros W.
  assert (L : forall l, (forall k amt, In (k, amt) l -> In (k, amt) totals) ->
              fold_left Ws.cacheStep l (Ws.updateCache totals cache)
              = Ws.updateCache totals cache).
  { induction l as [|[k amt] l IH]; cbn [fold_left]; intros H; auto.
    rewrite cacheStep_fixed by (auto; apply H; now left).
    apply IH. intros; apply H; now right. }
  apply L. auto.
Qed.

(** X3: delivering the same snapshot a second time, with the same answers of
    the exchange, changes nothing: neither the cache nor the group record
    that the first pass left. *)
Theorem same_snapshot_twice ccxt ex totals g balanceCache :
  wf totals ->
  let balanceData := mkBalanceData (Some totals) in
  let once := Ws.processBalanceData ccxt ex balanceData g balanceCache in
  let pushed := Ws.compileAndUpdateBalances ccxt ex balanceData g balanceCache in
  Ws.processBalanceData ccxt ex balanceData (fst once) (snd once) = once
  /\ Ws.compileAndUpdateBalances ccxt ex balanceData (fst pushed) (snd pushed)
     = pushed
  /\ Ws.updateCache totals (Ws.updateCache totals balanceCache)
     = Ws.updateCache totals balanceCache.
Proof.
  intros W balanceData once pushed.
  pose proof (updateCache_idempotent totals balanceCache W) as E.
  subst once pushed balanceData.
  unfold Ws.processBalanceData, Ws.compileAndUpdateBalances, Ws.totalsOf,
         Ws.publish.
  cbn [fst snd bd_total baseCurrency exchange spotBalance earnBalance].
  rewrite E. repeat split.
Qed.

(** The snapshot [{BTC: 0.5, ETH: 0}] over a cache holding ETH. *)
Lemma same_snapshot_twice_witness :
  wf [("BTC", 0.5); ("ETH", 0)]
  /\ Ws.updateCache [("BTC", 0.5); ("ETH", 0)]
       (Ws.updateCache [("BTC", 0.5); ("ETH", 0)] [("ETH", 2)])
     = Ws.updateCache [("BTC", 0.5); ("ETH", 0)] [("ETH", 2)].
Proof.
  assert (W : wf [("BTC", 0.5); ("ETH", 0)]).
  { repeat constructor; simpl; intuition discriminate. }
  split; [exact W|].
  exact (proj2 (proj2 (same_snapshot_twice Sample.noCcxt Sample.offline
                         [("BTC", 0.5); ("ETH", 0)] (Sample.groupOf "USD")
                         [("ETH", 2)] W))).
Defined.

(** X4: what a pass leaves in the cache under a currency. Reported with an
    amount above 1e-6 in absolute value: the reported amount, whatever was
    cached. Reported otherwise: nothing (a cached amount that is not truthy
    would stay). Not reported: what was cached. *)
Theorem cache_after_pass ccxt ex totals g balanceCache c :
  wf totals ->
  let after := snd (Ws.processBalanceData ccxt ex (mkBalanceData (Some totals))
                      g balanceCache) in
  (forall amt, get c totals = Some amt ->
               truthyNum amt && PrimFloat.ltb 1e-6 (abs amt) = true ->
               get c after = Some amt)
  /\ (forall amt, get c totals = Some amt ->
                  truthyNum amt && PrimFloat.ltb 1e-6 (abs amt) = false ->
                  get c after
                  = match get c balanceCache with
                    | Some cached =>
                        if truthyNum cached then None else Some cached
                    | None => None
                    end)
  /\ (get c totals = None -> get c after = get c balanceCache)
  /\ snd (Ws.compileAndUpdateBalances ccxt ex (mkBalanceData (Some totals))
            g balanceCache) = after.
Proof.
  intros W after. subst after.
  unfold Ws.processBalanceData, Ws.compileAndUpdateBalances, Ws.totalsOf.
  cbn [snd bd_total].
  rewrite updateCache_get by assumption.
  split; [|split; [|split]].
  - intros amt -> ->. reflexivity.
  - intros amt -> ->. reflexivity.
  - intros ->. reflexivity.
  - reflexivity.
Qed.

(** 0.7 BTC reported over a cache holding 0.5 BTC. *)
Lemma cache_after_pass_witness :
  wf [("BTC", 0.7)]
  /\ get "BTC" (snd (Ws.processBalanceData Sample.noCcxt Sample.offline
                       (mkBalanceData (Some [("BTC", 0.7)]))
                       (Sample.groupOf "USD") [("BTC", 0.5)])) = Some 0.7.
Proof.
  assert (W : wf [("BTC", 0.7)])
    by (constructor; [simpl; tauto | constructor]).
  split; [exact W|].
  exact (proj1 (cache_after_pass Sample.noCcxt Sample.offline [("BTC", 0.7)]
                  (Sample.groupOf "USD") [("BTC", 0.5)] "BTC" W)
           0.7 eq_refl eq_refl).
Defined.

(** X5: in the push pass of [ws.js] an asset is published under a currency
    exactly when the currency is cached, can be valued and its value is not
    dust; the asset then carries the cached amount and that value. *)
Theorem published_spot_asset ccxt ex balanceData g balanceCache c a :
  wf balanceCache ->
  let pass := Ws.compileAndUpdateBalances ccxt ex balanceData g balanceCache in
  get c (balances (fst pass)) = Some a
  <-> exists amt v,
        get c (snd pass) = Some amt
        /\ Ws.valueOf ccxt ex (baseCurrency g) c amt = Some v
        /\ isDust v = false
        /\ a = mkAsset c amt v spot.
Proof.
  intros W pass. subst pass.
  unfold Ws.compileAndUpdateBalances. cbn [fst snd Ws.publish balances].
  rewrite spotAssets_get by now apply wf_updateCache.
  destruct (get c (Ws.updateCache (Ws.totalsOf balanceData) balanceCache))
    as [amt|].
  - destruct (Ws.valueOf ccxt ex (baseCurrency g) c amt) as [v|] eqn:V.
    + destruct (isDust v) eqn:D.
      * split; [discriminate|].
        intros (amt' & v' & [= <-] & Hv & Hd & _). congruence.
      * split.
        -- intros [= <-]. exists amt, v. auto.
        -- intros (amt' & v' & [= <-] & Hv & _ & ->). congruence.
    + split; [discriminate|].
      intros (amt' & v' & [= <-] & Hv & _). congruence.
  - split; [discriminate|]. intros (amt' & v' & H & _). discriminate.
Qed.

(** 0.5 BTC on the exchange that lists [BTC/USD] at 60000. *)
Lemma published_spot_asset_witness :
  wf (@nil (string * float))
  /\ exists amt v,
       get "BTC" (snd (Ws.compileAndUpdateBalances Sample.noCcxt Sample.btcUsd
                         (Sample.snapshot [("BTC", 0.5)])
                         (Sample.groupOf "USD") [])) = Some amt
       /\ Ws.valueOf Sample.noCcxt Sample.btcUsd "USD" "BTC" amt = Some v
       /\ isDust v = false
       /\ mkAsset "BTC" 0.5 30000 spot = mkAsset "BTC" amt v spot.
Proof.
  assert (W : wf (@nil (string * float))) by constructor.
  split; [exact W|].
  exact (proj1 (published_spot_asset Sample.noCcxt Sample.btcUsd
                  (Sample.snapshot [("BTC", 0.5)]) (Sample.groupOf "USD") []
                  "BTC" (mkAsset "BTC" 0.5 30000 spot) W) eq_refl).
Defined.

(** ** Published assets *)

Lemma rest_spotLoop_entries ccxt ex base (P : string -> Asset -> Prop) entries :
  forall acc,
  (forall c amt v, P c (mkAsset c amt v spot)) ->
  (forall k a, In (k, a) acc -> P k a) ->
  forall k a, In (k, a) (fst (Rest.spotLoop ccxt ex base entries acc)) -> P k a.
Proof.
  induction entries as [|[c amt] rest IH]; cbn [Rest.spotLoop];
    intros acc Hs Ha; auto.
  destruct (truthyNum amt && PrimFloat.ltb 1e-8 (abs amt)); [|now apply IH].
  destruct (negb (String.eqb c base)).
  - destruct (Rest.resolvePrice ccxt ex c base) as [v|m]; [|exact Ha].
    destruct v as [| |p]; try (now apply IH).
    destruct (truthy (Num p)); [|now apply IH].
    apply IH; auto. now apply entries_set.
  - apply IH; auto. now apply entries_set.
Qed.

Lemma rest_positionLoop_entries ex (P : string -> Asset -> Prop) ps :
  forall acc,
  (forall p, P (pos_symbol p) (futuresAsset p)) ->
  (forall k a, In (k, a) acc -> P k a) ->
  forall k a, In (k, a) (Rest.positionLoop ex ps acc) -> P k a.
Proof.
  induction ps as [|p rest IH]; cbn [Rest.positionLoop]; intros acc Hp Ha; auto.
  destruct (strictNeqZero (contracts p)); [|now apply IH].
  destruct (fetchTicker ex (pos_symbol p)) as [t|m]; [|exact Ha].
  apply IH; auto. now apply entries_set.
Qed.

(** X6: in every monitor and every pass, completed or not, an asset is
    published under its own symbol: the key of an entry of [balances] is the
    [symbol] field of its asset. *)
Theorem assets_keyed_by_symbol ccxt ex balanceData g balanceCache k a :
  (get k (balances (fst (Ws.processBalanceData ccxt ex balanceData g
                           balanceCache))) = Some a -> symbol a = k)
  /\ (get k (balances (fst (Ws.compileAndUpdateBalances ccxt ex balanceData g
                              balanceCache))) = Some a -> symbol a = k)
  /\ (get k (balances (fst (WsFund.processBalanceData ccxt ex balanceData g
                              balanceCache))) = Some a -> symbol a = k)
  /\ (get k (balances (fst (WsFund.compileAndUpdateBalances ccxt ex
                              balanceData g balanceCache))) = Some a ->
      symbol a = k)
  /\ (get k (balances (fst (Rest.processBalanceData ccxt ex balanceData g)))
      = Some a -> symbol a = k).
Proof.
  set (P := fun (k : string) (a : Asset) => symbol a = k).
  assert (S : forall cache k a,
             In (k, a) (Ws.spotAssets ccxt ex (baseCurrency g) cache) -> P k a).
  { intros cache. unfold Ws.spotAssets.
    apply assetLoop_entries; [reflexivity | intros ? ? []]. }
  assert (W : forall cache k a,
             In (k, a) (Ws.withPositions ex
                          (Ws.spotAssets ccxt ex (baseCurrency g) cache)) ->
             P k a).
  { intros cache. unfold Ws.withPositions.
    destruct (fetchPositions ex) as [ps|]; [|apply S].
    apply positionLoop_entries; [reflexivity | apply S]. }
  assert (C : forall pass,
             pass = Ws.processBalanceData \/ pass = Ws.compileAndUpdateBalances
             \/ pass = WsFund.processBalanceData
             \/ pass = WsFund.compileAndUpdateBalances ->
             get k (balances (fst (pass ccxt ex balanceData g balanceCache)))
             = Some a -> symbol a = k).
  { intros pass Hp G. apply get_some_in in G.
    destruct (cache_pass_shape ccxt ex balanceData g balanceCache pass Hp)
      as (b & Hb & _). rewrite Hb in G.
    destruct b; [eapply W | eapply S]; eauto. }
  split; [apply C; auto|]. split; [apply C; auto|].
  split; [apply C; auto|]. split; [apply C; auto 6|].
  intros G. apply get_some_in in G. revert G.
  unfold Rest.processBalanceData.
  pose proof (rest_spotLoop_entries ccxt ex (baseCurrency g) P
                (Rest.usdcFirst (Ws.totalsOf balanceData)) []
                (fun _ _ _ => eq_refl) (fun _ _ (H : In _ []) => match H with end))
    as R.
  destruct (Rest.spotLoop ccxt ex (baseCurrency g)
              (Rest.usdcFirst (Ws.totalsOf balanceData)) [])
    as [assets [|m]]; cbn [fst snd balances Rest.setBalances Rest.setTotal] in *.
  - destruct (has_fetchPositions ex); [|apply R].
    unfold Rest.withPositions.
    destruct (fetchPositions ex) as [ps|]; [|apply R].
    apply (rest_positionLoop_entries ex P); [reflexivity | exact R].
  - apply R.
Qed.

(** The USD asset of the settled group record. *)
Lemma assets_keyed_by_symbol_witness :
  symbol (mkAsset "USD" 100 100 spot) = "USD".
Proof.
  exact (proj1 (proj2 (assets_keyed_by_symbol Sample.noCcxt Sample.offline
                         (Sample.snapshot [("USD", 100)])
                         (Sample.groupOf "USD") [] "USD"
                         (mkAsset "USD" 100 100 spot))) eq_refl).
Defined.

(** ** The position loop *)

Lemma ws_positionLoop_stops ex before p after : forall acc,
  strictNeqZero (contracts p) = true ->
  markets ex (pos_symbol p) = true ->
  (exists m, fetchTicker ex (pos_symbol p) = Throw m) ->
  Ws.positionLoop ex (before ++ p :: after) acc
  = Ws.positionLoop ex before acc.
Proof.
  intros acc C M [m T]. revert acc.
  induction before as [|q rest IH]; intros acc; cbn [app Ws.positionLoop].
  - now rewrite C, M, T.
  - destruct (strictNeqZero (contracts q)); [|apply IH].
    destruct (markets ex (pos_symbol q)); [|apply IH].
    destruct (fetchTicker ex (pos_symbol q)); [|reflexivity].
    destruct (isDust (upnlOf q)); apply IH.
Qed.

Lemma rest_positionLoop_stops ex before p after : forall acc,
  strictNeqZero (contracts p) = true ->
  (exists m, fetchTicker ex (pos_symbol p) = Throw m) ->
  Rest.positionLoop ex (before ++ p :: after) acc
  = Rest.positionLoop ex before acc.
Proof.
  intros acc C [m T]. revert acc.
  induction before as [|q rest IH]; intros acc; cbn [app Rest.positionLoop].
  - now rewrite C, T.
  - destruct (strictNeqZero (contracts q)); [|apply IH].
    destruct (fetchTicker ex (pos_symbol q)); [|reflexivity]. apply IH.
Qed.

(** X7: the ticker fetch of a position that throws ends the position loop:
    the pass publishes what the positions listed before it gave, and the
    positions listed after it, whatever they are, are not read. *)
Theorem failed_position_ticker_ends_loop ccxt ex balanceData g balanceCache
  before p after :
  has_fetchPositions ex = true ->
  fetchPositions ex = Ok (before ++ p :: after)%list ->
  strictNeqZero (contracts p) = true ->
  markets ex (pos_symbol p) = true ->
  (exists m, fetchTicker ex (pos_symbol p) = Throw m) ->
  balances (fst (Ws.processBalanceData ccxt ex balanceData g balanceCache))
  = Ws.positionLoop ex before
      (Ws.spotAssets ccxt ex (baseCurrency g)
         (Ws.updateCache (Ws.totalsOf balanceData) balanceCache))
  /\ forall assets,
       Rest.withPositions ex assets = Rest.positionLoop ex before assets.
Proof.
  intros H F C M T. split.
  - unfold Ws.processBalanceData. cbn [fst Ws.publish balances].
    rewrite H. unfold Ws.withPositions. rewrite F.
    now apply ws_positionLoop_stops.
  - intros assets. unfold Rest.withPositions. rewrite F.
    now apply rest_positionLoop_stops.
Qed.


(** The second of two positions has a ticker that cannot be fetched. *)
Lemma failed_position_ticker_ends_loop_witness :
  has_fetchPositions Scenario.secondTickerFails = true
  /\ balances (fst (Ws.processBalanceData Sample.noCcxt
                      Scenario.secondTickerFails (Sample.snapshot [])
                      (Sample.groupOf "USDT") []))
     = Ws.positionLoop Scenario.secondTickerFails
         [mkPosition Sample.perp 10 (Some 12)] [].
Proof.
  split; [reflexivity|].
  exact (proj1 (failed_position_ticker_ends_loop Sample.noCcxt
                  Scenario.secondTickerFails (Sample.snapshot [])
                  (Sample.groupOf "USDT") []
                  [mkPosition Sample.perp 10 (Some 12)]
                  (mkPosition Scenario.ethPerp 3 (Some 7)) []
                  eq_refl eq_refl eq_refl eq_refl
                  (ex_intro _ "RateLimitExceeded" eq_refl))).
Defined.

(** ** Market probing *)

Lemma findMarket_none ex base pairs :
  findMarket ex base pairs = None
  <-> forall candidate, In candidate pairs -> markets ex candidate = false.
Proof.
  induction pairs as [|p rest IH]; simpl.
  - split; [intros _ ? [] | reflexivity].
  - destruct (markets ex p) eqn:M.
    + split; [discriminate|]. intros H.
      rewrite (H p (or_introl eq_refl)) in M. discriminate.
    + rewrite IH. split.
      * intros H c [<- | I]; auto.
      * intros H c I. apply H. now right.
Qed.

Lemma findMarket_first ex base pairs m inv :
  findMarket ex base pairs = Some (m, inv)
  <-> exists before after,
        pairs = (before ++ m :: after)%list
        /\ (forall candidate, In candidate before ->
                              markets ex candidate = false)
        /\ markets ex m = true
        /\ inv = invertPriceOf base m.
Proof.
  revert m inv. induction pairs as [|p rest IH]; intros m inv; simpl.
  - split; [discriminate|].
    intros (before & after & E & _). destruct before; discriminate.
  - destruct (markets ex p) eqn:M.
    + split.
      * intros [= <- <-]. exists [], rest. repeat split; auto. intros ? [].
      * intros (before & after & E & Hb & Hm & ->).
        destruct before as [|q before]; cbn [app] in E.
        -- now injection E as <- _.
        -- injection E as <- _.
           rewrite (Hb p (or_introl eq_refl)) in M. discriminate.
    + rewrite IH. split.
      * intros (before & after & -> & Hb & Hm & ->).
        exists (p :: before), after. repeat split; auto.
        intros c [<- | I]; auto.
      * intros (before & after & E & Hb & Hm & ->).
        destruct before as [|q before]; cbn [app] in E.
        -- injection E as -> _. congruence.
        -- injection E as <- ->.
           exists before, after. repeat split; auto.
           intros c I. apply Hb. now right.
Qed.

(** X8: the six candidate names are probed in their order. The market found
    is the first candidate that the exchange lists, with the inversion flag
    of its name; none is found exactly when the exchange lists no candidate;
    and a listed direct pair [currency/valuation] is taken whatever else is
    listed. *)
Theorem market_probe_order ex currency base :
  (forall m inv,
      findMarket ex base (possiblePairs currency base) = Some (m, inv)
      <-> exists before after,
            possiblePairs currency base = (before ++ m :: after)%list
            /\ (forall candidate, In candidate before ->
                                  markets ex candidate = false)
            /\ markets ex m = true
            /\ inv = invertPriceOf base m)
  /\ (findMarket ex base (possiblePairs currency base) = None
      <-> forall candidate, In candidate (possiblePairs currency base) ->
                            markets ex candidate = false)
  /\ (markets ex (currency ++ "/" ++ base) = true ->
      findMarket ex base (possiblePairs currency base)
      = Some (currency ++ "/" ++ base,
              invertPriceOf base (currency ++ "/" ++ base))).
Proof.
  split; [intros m inv; apply findMarket_first|].
  split; [apply findMarket_none|].
  intros M. cbn [possiblePairs findMarket]. now rewrite M.
Qed.

(** The exchange that lists [BTC/USD] alone. *)
Lemma market_probe_order_witness :
  markets Sample.btcUsd ("BTC" ++ "/" ++ "USD") = true
  /\ findMarket Sample.btcUsd "USD" (possiblePairs "BTC" "USD")
     = Some ("BTC/USD", false).
Proof.
  split; [reflexivity|].
  exact (proj2 (proj2 (market_probe_order Sample.btcUsd "BTC" "USD")) eq_refl).
Defined.

(** X9: a holding of USD in a group valued in another currency is priced
    through the inverse of the direct pair: the name [USD/valuation] starts
    with "USD/", so the inversion flag is set although the valuation
    currency is the denominator. *)
Theorem usd_direct_pair_is_inverted ccxt ex base t amt :
  "USD" <> base ->
  markets ex ("USD/" ++ base) = true ->
  fetchTicker ex ("USD/" ++ base) = Ok t ->
  findMarket ex base (possiblePairs "USD" base) = Some ("USD/" ++ base, true)
  /\ Ws.resolvePrice ccxt ex "USD" base = Num (1 / toNumber (lastOrClose t))
  /\ Rest.resolvePrice ccxt ex "USD" base
     = Ok (Num (1 / toNumber (lastOrClose t)))
  /\ (truthyNum (1 / toNumber (lastOrClose t)) = true ->
      Ws.valueOf ccxt ex base "USD" amt
      = Some (amt * (1 / toNumber (lastOrClose t)))).
Proof.
  intros N M T.
  assert (I : invertPriceOf base ("USD/" ++ base) = true).
  { assert (Pfx : String.prefix "USD/" ("USD/" ++ base) = true)
      by (simpl; destruct base; reflexivity).
    unfold invertPriceOf, startsWith. rewrite Pfx.
    now rewrite orb_true_r. }
  assert (F : findMarket ex base (possiblePairs "USD" base)
              = Some ("USD/" ++ base, true)).
  { cbn [possiblePairs findMarket].
    change ("USD" ++ "/" ++ base)%string with ("USD/" ++ base)%string.
    now rewrite M, I. }
  split; [exact F|].
  assert (R : Ws.resolvePrice ccxt ex "USD" base
              = Num (1 / toNumber (lastOrClose t)))
    by (unfold Ws.resolvePrice; now rewrite F, T).
  split; [exact R|]. split.
  - unfold Rest.resolvePrice. now rewrite F, T.
  - intros Tr. unfold Ws.valueOf.
    apply String.eqb_neq in N. rewrite N, R. cbn [negb truthy]. now rewrite Tr.
Qed.

(** 100 USD in a EUR group, [USD/EUR] last traded at 0.9. *)
Lemma usd_direct_pair_is_inverted_witness :
  "USD" <> "EUR"
  /\ Ws.resolvePrice Sample.noCcxt Scenario.usdEur "USD" "EUR"
     = Num (1 / 0.9).
Proof.
  assert (N : "USD" <> "EUR") by discriminate.
  split; [exact N|].
  exact (proj1 (proj2 (usd_direct_pair_is_inverted Sample.noCcxt
                         Scenario.usdEur "EUR" (mkTicker (Some 0.9) None) 100
                         N eq_refl eq_refl))).
Defined.

(** ** Alternates *)

Lemma rest_alternate_first ccxt c base before exchangeId after alt m inv t :
  (forall i, In i before -> altFails ccxt c base i) ->
  ccxt exchangeId = Some alt ->
  loadMarkets alt = Ok tt ->
  findMarket alt base (possiblePairs c base) = Some (m, inv) ->
  fetchTicker alt m = Ok t ->
  Rest.altPriceFrom ccxt c base (before ++ exchangeId :: after)
  = ofOption (lastOrClose t).
Proof.
  intros Hb Hc Hl Hf Ht.
  induction before as [|i rest IH].
  - cbn [app Rest.altPriceFrom]. now rewrite Hc, Hl, Hf, Ht.
  - assert (Hi : altFails ccxt c base i) by (apply Hb; now left).
    assert (Hr : Rest.altPriceFrom ccxt c base (rest ++ exchangeId :: after)
                 = ofOption (lastOrClose t))
      by (apply IH; intros; apply Hb; now right).
    unfold altFails in Hi. cbn [app Rest.altPriceFrom].
    destruct (ccxt i) as [alt'|]; [|exact Hr].
    destruct (loadMarkets alt'); [|exact Hr].
    destruct (findMarket alt' base (possiblePairs c base)) as [[cand inv']|];
      [|exact Hr].
    destruct (fetchTicker alt' cand); [contradiction | exact Hr].
Qed.

(** X10: alternate discovery stops at the first alternate that can be
    instantiated, loads its markets, lists a candidate and answers the ticker
    call: the price is read from that ticker (inverted by [ws.js] under the
    rule of the primary lookup, as it is by [rest.js]), also when it is 0 or
    missing, and the alternates after it are not asked. *)
Theorem first_answering_alternate ccxt c base before exchangeId after alt m
  inv t :
  (forall i, In i before -> altFails ccxt c base i) ->
  ccxt exchangeId = Some alt ->
  loadMarkets alt = Ok tt ->
  findMarket alt base (possiblePairs c base) = Some (m, inv) ->
  fetchTicker alt m = Ok t ->
  Ws.altPriceFrom ccxt c base (before ++ exchangeId :: after)
  = (if invertPriceOf base m then Num (1 / toNumber (lastOrClose t))
     else ofOption (lastOrClose t))
  /\ Rest.altPriceFrom ccxt c base (before ++ exchangeId :: after)
     = ofOption (lastOrClose t).
Proof.
  intros Hb Hc Hl Hf Ht. split.
  - eapply ws_alternate_inverts; eauto.
  - eapply rest_alternate_first; eauto.
Qed.

(** binance cannot be instantiated; kraken lists [ETH/USD] at 2500. *)
Lemma first_answering_alternate_witness :
  Ws.fetchPriceFromAlternativeExchange Scenario.krakenOnly "ETH" "USD"
  = Num 2500.
Proof.
  exact (proj1 (first_answering_alternate Scenario.krakenOnly "ETH" "USD"
                  ["binance"] "kraken" ["coinbasepro"] Scenario.ethUsd
                  "ETH/USD" false (mkTicker (Some 2500) None)
                  (fun i H => match H with
                              | or_introl E =>
                                  eq_ind "binance"
                                    (altFails Scenario.krakenOnly "ETH" "USD")
                                    I i E
                              | or_intror F => match F with end
                              end)
                  eq_refl eq_refl eq_refl eq_refl)).
Defined.

(** ** The earn balance *)

Lemma earnLoop_filter ex response : forall t0,
  WsFund.earnLoop ex response t0
  = WsFund.earnLoop ex
      (filter (fun lend =>
                 PrimFloat.ltb 0 (lend_amount lend)
                 && (String.eqb (lend_currency lend) "USDT"
                     || String.eqb (lend_currency lend) "USDC"
                     || match fetchTicker ex (lend_currency lend ++ "/USDT") with
                        | Ok _ => true
                        | Throw _ => false
                        end))
              response) t0.
Proof.
  induction response as [|lend rest IH]; intros t0; [reflexivity|].
  cbn [filter WsFund.earnLoop].
  destruct (PrimFloat.ltb 0 (lend_amount lend)) eqn:P; cbn [andb]; [|apply IH].
  destruct (String.eqb (lend_currency lend) "USDT"
            || String.eqb (lend_currency lend) "USDC") eqn:S; cbn [orb].
  - cbn [WsFund.earnLoop]. rewrite P, S. apply IH.
  - destruct (fetchTicker ex (lend_currency lend ++ "/USDT")) as [t|m] eqn:T.
    + cbn [WsFund.earnLoop]. rewrite P, S, T. apply IH.
    + apply IH.
Qed.

Lemma earnLoop_stable ex response : forall t0,
  (forall lend, In lend response ->
                String.eqb (lend_currency lend) "USDT"
                || String.eqb (lend_currency lend) "USDC" = true) ->
  WsFund.earnLoop ex response t0
  = fold_left (fun acc lend =>
                 if PrimFloat.ltb 0 (lend_amount lend)
                 then acc + lend_amount lend else acc)
              response t0.
Proof.
  induction response as [|lend rest IH]; intros t0 H; [reflexivity|].
  cbn [WsFund.earnLoop fold_left].
  rewrite (H lend (or_introl eq_refl)).
  destruct (PrimFloat.ltb 0 (lend_amount lend));
    apply IH; intros; apply H; now right.
Qed.

(** X11: the earn balance counts a lending entry only when its amount is
    positive and it is in USDT or USDC or its [currency/USDT] ticker can be
    fetched: the other entries may be left out without changing the result.
    Entries in USDT or USDC are added at their amount, without any ticker;
    and when the markets or the lending entries cannot be fetched the
    balance is 0. *)
Theorem earn_balance_counts ex response :
  privateEarnGetUniLends ex = Ok response ->
  (exists u, loadMarkets ex = Ok u) ->
  WsFund.fetchGateioEarnBalance ex
  = WsFund.earnLoop ex
      (filter (fun lend =>
                 PrimFloat.ltb 0 (lend_amount lend)
                 && (String.eqb (lend_currency lend) "USDT"
                     || String.eqb (lend_currency lend) "USDC"
                     || match fetchTicker ex (lend_currency lend ++ "/USDT") with
                        | Ok _ => true
                        | Throw _ => false
                        end))
              response) 0
  /\ ((forall lend, In lend response ->
                    String.eqb (lend_currency lend) "USDT"
                    || String.eqb (lend_currency lend) "USDC" = true) ->
      WsFund.fetchGateioEarnBalance ex
      = fold_left (fun acc lend =>
                     if PrimFloat.ltb 0 (lend_amount lend)
                     then acc + lend_amount lend else acc)
                  response 0).
Proof.
  intros R [u L].
  assert (E : WsFund.fetchGateioEarnBalance ex = WsFund.earnLoop ex response 0)
    by (unfold WsFund.fetchGateioEarnBalance; now rewrite L, R).
  rewrite E. split; [apply earnLoop_filter | apply earnLoop_stable].
Qed.

(** 40 USDT lent, an empty BTC entry and DOGE without ticker: 40. *)
Lemma earn_balance_counts_witness :
  privateEarnGetUniLends Scenario.lending
  = Ok [mkLend "USDT" 40; mkLend "BTC" 0; mkLend "DOGE" 1000]
  /\ WsFund.fetchGateioEarnBalance Scenario.lending
     = WsFund.earnLoop Scenario.lending [mkLend "USDT" 40] 0.
Proof.
  split; [reflexivity|].
  exact (proj1 (earn_balance_counts Scenario.lending
                  [mkLend "USDT" 40; mkLend "BTC" 0; mkLend "DOGE" 1000]
                  eq_refl (ex_intro _ tt eq_refl))).
Defined.

(** ** The snapshot of the REST monitor *)

Lemma spread_get {A : Type} c (b : obj A) : forall a,
  wf b ->
  get c (spread a b) = match get c b with
                       | Some v => Some v
                       | None => get c a
                       end.
Proof.
  unfold spread, wf.
  induction b as [|[k v] rest IH]; cbn [fold_left get fst snd]; intros a W; auto.
  inversion W as [|? ? Hn W']; subst.
  rewrite IH by assumption.
  destruct (String.eqb c k) eqn:E.
  - apply String.eqb_eq in E. subst k.
    apply get_none_keys in Hn. rewrite Hn. apply get_set_same.
  - apply String.eqb_neq in E.
    destruct (get c rest); auto. now apply get_set_other.
Qed.

(** X12: on coinbase the REST monitor merges two snapshots: for a currency
    that the cash snapshot reports, the cash amount replaces the amount of
    the default snapshot; the other currencies keep theirs. *)
Theorem rest_coinbase_cash_overrides ex balanceData cashBalance c :
  id ex = "coinbase" ->
  fetchBalance ex None = Ok balanceData ->
  fetchBalance ex (Some "cash") = Ok cashBalance ->
  wf (Ws.totalsOf cashBalance) ->
  get c (Ws.totalsOf (Rest.fetchCompleteBalance ex))
  = match get c (Ws.totalsOf cashBalance) with
    | Some v => Some v
    | None => get c (Ws.totalsOf balanceData)
    end.
Proof.
  intros I B C W.
  unfold Rest.fetchCompleteBalance, Rest.fetchBalanceBody.
  rewrite I, B, C.
  change ("coinbase" =? "coinbase")%string with true. cbv iota.
  cbn [Ws.totalsOf bd_total]. now apply spread_get.
Qed.

(** 5 USD in the default snapshot, 80 USD in the cash snapshot. *)
Lemma rest_coinbase_cash_overrides_witness :
  id Scenario.coinbaseCash = "coinbase"
  /\ get "USD" (Ws.totalsOf (Rest.fetchCompleteBalance Scenario.coinbaseCash))
     = Some 80
  /\ get "BTC" (Ws.totalsOf (Rest.fetchCompleteBalance Scenario.coinbaseCash))
     = Some 1.
Proof.
  assert (W : wf (Ws.totalsOf (mkBalanceData (Some [("USD", 80)]))))
    by (constructor; [simpl; tauto | constructor]).
  split; [reflexivity|]. split.
  - exact (rest_coinbase_cash_overrides Scenario.coinbaseCash
             (mkBalanceData (Some [("BTC", 1); ("USD", 5)]))
             (mkBalanceData (Some [("USD", 80)])) "USD"
             eq_refl eq_refl eq_refl W).
  - exact (rest_coinbase_cash_overrides Scenario.coinbaseCash
             (mkBalanceData (Some [("BTC", 1); ("USD", 5)]))
             (mkBalanceData (Some [("USD", 80)])) "BTC"
             eq_refl eq_refl eq_refl W).
Defined.

(** X13: rebuilding the totals around USDC changes no amount: every currency
    is looked up in the rebuilt totals as in the original ones. When USDC is
    held with a truthy amount, the rebuilt totals list the keys that are
    array indices, then USDC, then every other key; so USDC is the first
    entry when no currency code is an array index, and with a code such as
    42 it is not. *)
Theorem usdc_first_keeps_amounts totalBalances :
  (forall c, get c (Rest.usdcFirst totalBalances) = get c totalBalances)
  /\ (forall usdcAmount,
         get "USDC" totalBalances = Some usdcAmount ->
         truthyNum usdcAmount = true ->
         exists front back,
           Rest.usdcFirst totalBalances
           = (front ++ ("USDC", usdcAmount) :: back)%list
           /\ (forall k, In k (keys front) <->
                         In k (keys totalBalances) /\ isArrayIndex k = true)
           /\ (forall k, In k (keys back) <->
                         In k (keys totalBalances) /\ k <> "USDC"
                         /\ isArrayIndex k = false)
           /\ ((forall k, In k (keys totalBalances) -> isArrayIndex k = false) ->
               hd_error (Rest.usdcFirst totalBalances)
               = Some ("USDC", usdcAmount)))
  /\ Rest.usdcFirst [("42", 7); ("ETH", 2); ("USDC", 30)]
     = [("42", 7); ("USDC", 30); ("ETH", 2)].
Proof.
  split; [exact (usdcFirst_get totalBalances)|].
  split; [|reflexivity].
  intros u G T. unfold Rest.usdcFirst. rewrite G, T.
  exists (filter (fun kv => isArrayIndex (fst kv)) (del "USDC" totalBalances)),
         (filter (fun kv => negb (isArrayIndex (fst kv)))
                 (del "USDC" totalBalances)).
  split; [reflexivity|]. split; [|split].
  - intros k. rewrite (keys_filter isArrayIndex), keys_del. split.
    + tauto.
    + intros [I P]. repeat split; auto. intros ->. discriminate P.
  - intros k. rewrite (keys_filter (fun k => negb (isArrayIndex k))), keys_del.
    rewrite negb_true_iff. tauto.
  - intros N.
    assert (E : filter (fun kv : string * float => isArrayIndex (fst kv))
                       (del "USDC" totalBalances) = []).
    { destruct (filter (fun kv : string * float => isArrayIndex (fst kv))
                       (del "USDC" totalBalances)) as [|[k v] l] eqn:F;
        [reflexivity|].
      assert (I : In k (keys (filter (fun kv : string * float =>
                                        isArrayIndex (fst kv))
                                     (del "USDC" totalBalances))))
        by (rewrite F; now left).
      apply (keys_filter isArrayIndex) in I. destruct I as [I P].
      apply keys_del in I. rewrite (N k) in P by tauto. discriminate P. }
    rewrite E. reflexivity.
Qed.

(** ETH before USDC in the snapshot. *)
Lemma usdc_first_keeps_amounts_witness :
  hd_error (Rest.usdcFirst [("ETH", 2); ("USDC", 30)]) = Some ("USDC", 30).
Proof.
  destruct (proj1 (proj2 (usdc_first_keeps_amounts [("ETH", 2); ("USDC", 30)]))
              30 eq_refl eq_refl) as (front & back & _ & _ & _ & H).
  apply H. intros k [<- | [<- | []]]; reflexivity.
Defined.

(** ** How a REST pass ends *)

Lemma rest_resolvePrice_throw ccxt ex c base m :
  Rest.resolvePrice ccxt ex c base = Throw m ->
  exists pair, markets ex pair = true /\ fetchTicker ex pair = Throw m.
Proof.
  unfold Rest.resolvePrice.
  destruct (findMarket ex base (possiblePairs c base)) as [[pair inv]|] eqn:F;
    [|discriminate].
  destruct (findMarket_flag _ _ _ _ _ F) as (_ & M & _).
  destruct (fetchTicker ex pair) as [t|m'] eqn:T; [discriminate|].
  intros [= <-]. eauto.
Qed.

Lemma rest_spotLoop_threw ccxt ex base m entries : forall assets,
  snd (Rest.spotLoop ccxt ex base entries assets) = Rest.Threw m ->
  exists pair, markets ex pair = true /\ fetchTicker ex pair = Throw m.
Proof.
  induction entries as [|[c amt] rest IH]; cbn [Rest.spotLoop]; intros assets;
    [discriminate|].
  destruct (truthyNum amt && PrimFloat.ltb 1e-8 (abs amt)); [|apply IH].
  destruct (negb (String.eqb c base)); [|apply IH].
  destruct (Rest.resolvePrice ccxt ex c base) as [v|m'] eqn:R.
  - destruct v as [| |p]; try apply IH.
    destruct (truthy (Num p)); apply IH.
  - cbn [snd]. intros [= <-]. eapply rest_resolvePrice_throw; eauto.
Qed.

(** X14: the only exception that leaves a pass of the REST monitor is the
    one of a ticker fetch on a market of the primary exchange, with its
    message; when every market of the exchange answers its ticker call, the
    pass returns. *)
Theorem rest_pass_outcome ccxt ex balanceData g :
  (forall m, snd (Rest.processBalanceData ccxt ex balanceData g) = Rest.Threw m ->
             exists pair, markets ex pair = true
                          /\ fetchTicker ex pair = Throw m)
  /\ ((forall pair, markets ex pair = true ->
                    exists t, fetchTicker ex pair = Ok t) ->
      snd (Rest.processBalanceData ccxt ex balanceData g) = Rest.Done).
Proof.
  assert (T : forall m,
             snd (Rest.processBalanceData ccxt ex balanceData g) = Rest.Threw m ->
             exists pair, markets ex pair = true
                          /\ fetchTicker ex pair = Throw m).
  { intros m. unfold Rest.processBalanceData.
    pose proof (rest_spotLoop_threw ccxt ex (baseCurrency g) m
                  (Rest.usdcFirst (Ws.totalsOf balanceData)) []) as L.
    destruct (Rest.spotLoop ccxt ex (baseCurrency g)
                (Rest.usdcFirst (Ws.totalsOf balanceData)) [])
      as [assets [|m']]; cbn [snd] in *; [discriminate | exact L]. }
  split; [exact T|].
  intros H.
  destruct (snd (Rest.processBalanceData ccxt ex balanceData g)) as [|m] eqn:E;
    [reflexivity|].
  destruct (T m eq_refl) as (pair & M & F).
  destruct (H pair M) as [t F']. congruence.
Qed.

(** The exchange that lists [ETH/USD] and fails its ticker call. *)
Lemma rest_pass_outcome_witness :
  exists pair, markets Sample.flaky pair = true
               /\ fetchTicker Sample.flaky pair = Throw "NetworkError".
Proof.
  exact (proj1 (rest_pass_outcome Sample.noCcxt Sample.flaky
                  (Sample.snapshot [("ETH", 2)]) Sample.settled)
           "NetworkError" eq_refl).
Defined.

(** X15: a pass of the REST monitor that an exception leaves has replaced
    the assets of the group by spot assets only, the positions not being
    read, and has left its total and its valuation currency as they were. *)
Theorem rest_aborted_pass_state ccxt ex balanceData g g' m :
  Rest.processBalanceData ccxt ex balanceData g = (g', Rest.Threw m) ->
  total g' = total g
  /\ baseCurrency g' = baseCurrency g
  /\ forall k a, get k (balances g') = Some a -> type a = spot.
Proof.
  unfold Rest.processBalanceData.
  pose proof (rest_spotLoop_entries ccxt ex (baseCurrency g)
                (fun _ a => type a = spot)
                (Rest.usdcFirst (Ws.totalsOf balanceData)) []
                (fun _ _ _ => eq_refl) (fun _ _ (H : In _ []) => match H with end))
    as R.
  destruct (Rest.spotLoop ccxt ex (baseCurrency g)
              (Rest.usdcFirst (Ws.totalsOf balanceData)) [])
    as [assets [|m']]; [discriminate|].
  intros [= <- <-]. cbn [fst] in R.
  repeat split. intros k a G. apply get_some_in in G. eapply R; eauto.
Qed.

(** The aborted pass over the settled group record. *)
Lemma rest_aborted_pass_state_witness :
  total (fst (Rest.processBalanceData Sample.noCcxt Sample.flaky
                (Sample.snapshot [("ETH", 2)]) Sample.settled))
  = total Sample.settled.
Proof.
  exact (proj1 (rest_aborted_pass_state Sample.noCcxt Sample.flaky
                  (Sample.snapshot [("ETH", 2)]) Sample.settled
                  (mkGroup "main" [] "USD" 100 None None) "NetworkError"
                  eq_refl)).
Defined.
(** ** Grouping the accounts *)

Lemma reduceAccounts_ok accounts k : forall acc,
  (forall a, In a accounts -> inherited (WsFund.acct_n a) = false) ->
  exists grouped,
    Mon.reduceAccounts accounts acc = Ok grouped
    /\ get k grouped
       = match get k acc,
               filter (fun a => String.eqb (WsFund.acct_n a) k) accounts with
         | Some group, l => Some (group ++ l)%list
         | None, [] => None
         | None, l => Some l
         end.
Proof.
  induction accounts as [|a rest IH]; intros acc H;
    cbn [Mon.reduceAccounts filter].
  - exists acc. split; [reflexivity|].
    destruct (get k acc) as [group|]; [now rewrite app_nil_r | reflexivity].
  - assert (Hr : forall b, In b rest -> inherited (WsFund.acct_n b) = false)
      by (intros; apply H; now right).
    assert (S : exists v,
               Mon.groupStep acc a = Ok (set (WsFund.acct_n a) v acc)
               /\ v = match get (WsFund.acct_n a) acc with
                      | Some group => (group ++ [a])%list
                      | None => [a]
                      end).
    { unfold Mon.groupStep.
      destruct (get (WsFund.acct_n a) acc) as [group|]; [eauto|].
      rewrite (H a (or_introl eq_refl)). eauto. }
    destruct S as (v & -> & Hv).
    destruct (IH (set (WsFund.acct_n a) v acc) Hr) as (grouped & R & G).
    exists grouped. split; [exact R|]. rewrite G.
    destruct (String.eqb (WsFund.acct_n a) k) eqn:E.
    + apply String.eqb_eq in E. rewrite E in *. rewrite get_set_same. subst v.
      destruct (get k acc) as [group|].
      * now rewrite <- app_assoc.
      * reflexivity.
    + apply String.eqb_neq in E.
      rewrite get_set_other by congruence. reflexivity.
Qed.

Lemma reduceAccounts_throw accounts : forall acc,
  (forall k, inherited k = true -> get k acc = None) ->
  (exists a, In a accounts /\ inherited (WsFund.acct_n a) = true) ->
  Mon.reduceAccounts accounts acc = Throw "TypeError".
Proof.
  induction accounts as [|a rest IH]; intros acc N (b & I & P);
    [destruct I|].
  cbn [Mon.reduceAccounts]. unfold Mon.groupStep.
  destruct (inherited (WsFund.acct_n a)) eqn:Pa.
  - now rewrite (N _ Pa).
  - assert (Ir : exists b, In b rest /\ inherited (WsFund.acct_n b) = true).
    { destruct I as [<- | I]; [congruence | eauto]. }
    assert (N' : forall v k, inherited k = true ->
                             get k (set (WsFund.acct_n a) v acc) = None).
    { intros v k Pk. rewrite get_set_other; auto. intros ->. congruence. }
    destruct (get (WsFund.acct_n a) acc) as [group|]; apply IH; auto.
Qed.

(** X16: when no account carries a name that objects inherit (constructor,
    toString, ...), [groupedAccounts] holds under each name exactly the
    accounts of that name, in the order of the file, and has no entry for a
    name that no account carries; so every account is found in the group of
    its name, and no group is under an inherited name. With an account of
    such a name the grouping throws a TypeError and [mon.js] starts
    nothing. *)
Theorem accounts_grouped_by_name accounts :
  ((forall a, In a accounts -> inherited (WsFund.acct_n a) = false) ->
   exists grouped,
     Mon.groupedAccounts accounts = Ok grouped
     /\ (forall k,
            get k grouped
            = match filter (fun a => String.eqb (WsFund.acct_n a) k) accounts
              with
              | [] => None
              | l => Some l
              end)
     /\ (forall a, In a accounts ->
                   exists group,
                     get (WsFund.acct_n a) grouped = Some group
                     /\ In a group)
     /\ (forall k, get k grouped <> None -> inherited k = false))
  /\ ((exists a, In a accounts /\ inherited (WsFund.acct_n a) = true) ->
      Mon.groupedAccounts accounts = Throw "TypeError").
Proof.
  split.
  - intros H. unfold Mon.groupedAccounts.
    destruct (reduceAccounts_ok accounts "" [] H) as (grouped & R & _).
    exists grouped. split; [exact R|].
    assert (G : forall k,
               get k grouped
               = match filter (fun a => String.eqb (WsFund.acct_n a) k)
                              accounts with
                 | [] => None
                 | l => Some l
                 end).
    { intros k. destruct (reduceAccounts_ok accounts k [] H)
        as (grouped' & R' & G').
      rewrite R in R'. injection R' as <-. exact G'. }
    split; [exact G|]. split.
    + intros a I. rewrite G.
      assert (F : In a (filter (fun b => String.eqb (WsFund.acct_n b)
                                                    (WsFund.acct_n a))
                               accounts))
        by (apply filter_In; split; [exact I | apply String.eqb_refl]).
      destruct (filter _ accounts) as [|b l]; [destruct F|].
      eexists. split; [reflexivity | exact F].
    + intros k. rewrite G.
      destruct (filter (fun a => String.eqb (WsFund.acct_n a) k) accounts)
        as [|b l] eqn:F; [congruence|].
      intros _.
      assert (I : In b (filter (fun a => String.eqb (WsFund.acct_n a) k)
                               accounts)) by (rewrite F; now left).
      apply filter_In in I. destruct I as [I E].
      apply String.eqb_eq in E. subst k. now apply H.
  - intros E. unfold Mon.groupedAccounts.
    apply reduceAccounts_throw; [reflexivity | exact E].
Qed.

(** Two accounts named "Alpha Fund" around one named "Beta"; and the same
    file with a further account named "constructor". *)
Lemma accounts_grouped_by_name_witness :
  (exists grouped,
      Mon.groupedAccounts
        [Sample.fundAccount;
         WsFund.mkAccount "kucoin" "Beta" "USD" None;
         WsFund.mkAccount "bybit" "Alpha Fund" "USDT" (Some "swap")]
      = Ok grouped
      /\ get "Alpha Fund" grouped
         = Some [Sample.fundAccount;
                 WsFund.mkAccount "bybit" "Alpha Fund" "USDT" (Some "swap")])
  /\ Mon.groupedAccounts
       [Sample.fundAccount;
        WsFund.mkAccount "kucoin" "constructor" "USD" None]
     = Throw "TypeError".
Proof.
  split.
  - destruct (proj1 (accounts_grouped_by_name
                       [Sample.fundAccount;
                        WsFund.mkAccount "kucoin" "Beta" "USD" None;
                        WsFund.mkAccount "bybit" "Alpha Fund" "USDT"
                                         (Some "swap")]))
      as (grouped & R & G & _ & _).
    + intros a [<- | [<- | [<- | []]]]; reflexivity.
    + exists grouped. split; [exact R|]. rewrite G. reflexivity.
  - apply (proj2 (accounts_grouped_by_name
                    [Sample.fundAccount;
                     WsFund.mkAccount "kucoin" "constructor" "USD" None])).
    exists (WsFund.mkAccount "kucoin" "constructor" "USD" None).
    split; [right; left; reflexivity | reflexivity].
Defined.

(** ** Starting the REST connections *)

Lemma restMon_invariant ccxt accounts : forall balancesObj started,
  let r := RestMon.monitorBalancesREST ccxt accounts balancesObj started in
  (forall k g, get k balancesObj = Some g -> get k (fst (fst r)) = Some g)
  /\ (forall k g, get k balancesObj = None -> get k (fst (fst r)) = Some g ->
                  balances g = [] /\ total g = 0 /\ exchange g = k
                  /\ inherited k = false)
  /\ ((forall c, In c started ->
                 get (snd c) balancesObj <> None \/ inherited (snd c) = true) ->
      forall c, In c (snd (fst r)) ->
                get (snd c) (fst (fst r)) <> None \/ inherited (snd c) = true).
Proof.
  induction accounts as [|a rest IH]; intros balancesObj started;
    cbn [RestMon.monitorBalancesREST].
  - cbn [fst snd]. split; [auto|]. split; [|auto]. intros k g N S. congruence.
  - destruct (ccxt (RestMon.acct_e a)) as [ex|]; [|apply IH].
    set (name := RestMon.acct_groupName a).
    set (b' := match get name balancesObj with
               | Some _ => balancesObj
               | None =>
                   if inherited name then balancesObj
                   else set name
                          (WsFund.initGroup name (RestMon.acct_baseCurrency a))
                          balancesObj
               end).
    assert (Keep : forall k g, get k balancesObj = Some g -> get k b' = Some g).
    { intros k g G. subst b'.
      destruct (get name balancesObj) eqn:N; auto.
      destruct (inherited name); auto.
      rewrite get_set_other; auto. intros ->. congruence. }
    assert (New : forall k g, get k balancesObj = None -> get k b' = Some g ->
                              balances g = [] /\ total g = 0 /\ exchange g = k
                              /\ inherited k = false).
    { intros k g G. subst b'.
      destruct (get name balancesObj) eqn:N; [congruence|].
      destruct (inherited name) eqn:P; [congruence|].
      destruct (String.eqb k name) eqn:E.
      - apply String.eqb_eq in E. subst k. rewrite get_set_same.
        intros [= <-]. repeat split. exact P.
      - apply String.eqb_neq in E. rewrite get_set_other by assumption.
        congruence. }
    assert (Has : get name b' <> None \/ inherited name = true).
    { subst b'. destruct (get name balancesObj) eqn:N;
        [left; congruence|].
      destruct (inherited name); [now right | left].
      rewrite get_set_same. discriminate. }
    assert (Still : forall c : Exchange * string,
               get (snd c) balancesObj <> None \/ inherited (snd c) = true ->
               get (snd c) b' <> None \/ inherited (snd c) = true).
    { intros c [Hc | Hc]; [left | now right].
      destruct (get (snd c) balancesObj) as [g0|] eqn:G; [|congruence].
      rewrite (Keep _ _ G). discriminate. }
    destruct (loadMarkets ex) as [u|m].
    + destruct (IH b' (started ++ [(ex, name)])%list) as (I1 & I2 & I3).
      split; [auto|]. split.
      * intros k g N S.
        destruct (get k b') as [g0|] eqn:G.
        -- rewrite (I1 k g0 G) in S. injection S as <-. now apply New.
        -- now apply (I2 k g).
      * intros Hs. apply I3. intros c Hc. apply in_app_or in Hc.
        destruct Hc as [Hc | [<- | []]]; [apply Still; auto | exact Has].
    + cbn [fst snd]. split; [exact Keep|]. split; [exact New|].
      intros Hs c Hc. apply Still; auto.
Qed.

Lemma restMon_unknown ccxt accounts : forall balancesObj started,
  (forall a, In a accounts -> ccxt (RestMon.acct_e a) = None) ->
  RestMon.monitorBalancesREST ccxt accounts balancesObj started
  = ((balancesObj, started), Rest.Done).
Proof.
  induction accounts as [|a rest IH]; intros balancesObj started H;
    cbn [RestMon.monitorBalancesREST]; [reflexivity|].
  rewrite (H a (or_introl eq_refl)). apply IH. intros; apply H; now right.
Qed.

(** X17: [monitorBalancesREST] never replaces an entry of the global balances
    object: a group that exists keeps its record, valuation currency
    included, whatever the later accounts declare; an entry it adds is empty
    with total 0, under a name that objects do not inherit; every connection
    it starts has the entry of its group unless the group name is inherited
    (constructor, toString, ...), and then polling starts without an entry,
    as for a group named "constructor"; and accounts whose exchange is
    unknown start nothing and add nothing. *)
Theorem rest_monitor_start ccxt accounts balancesObj :
  let r := RestMon.monitorBalancesREST ccxt accounts balancesObj [] in
  (forall k g, get k balancesObj = Some g -> get k (fst (fst r)) = Some g)
  /\ (forall k g, get k balancesObj = None -> get k (fst (fst r)) = Some g ->
                  balances g = [] /\ total g = 0 /\ exchange g = k
                  /\ inherited k = false)
  /\ (forall c, In c (snd (fst r)) ->
                get (snd c) (fst (fst r)) <> None \/ inherited (snd c) = true)
  /\ ((forall a, In a accounts -> ccxt (RestMon.acct_e a) = None) ->
      r = ((balancesObj, []), Rest.Done))
  /\ RestMon.monitorBalancesREST Sample.binanceOnly
       [RestMon.mkAccount "binance" "USD" "constructor"] [] []
     = (([], [(Sample.usdEth, "constructor")]), Rest.Done).
Proof.
  intros r. subst r.
  destruct (restMon_invariant ccxt accounts balancesObj []) as (I1 & I2 & I3).
  split; [exact I1|]. split; [exact I2|]. split; [|split].
  - apply I3. intros c [].
  - apply restMon_unknown.
  - reflexivity.
Qed.

(** Two accounts of one group with different valuation currencies. *)
Lemma rest_monitor_start_witness :
  get "main"
    (fst (fst (RestMon.monitorBalancesREST Sample.binanceOnly
                 [RestMon.mkAccount "binance" "EUR" "main"]
                 [("main", Sample.groupOf "USD")] [])))
  = Some (Sample.groupOf "USD").
Proof.
  exact (proj1 (rest_monitor_start Sample.binanceOnly
                  [RestMon.mkAccount "binance" "EUR" "main"]
                  [("main", Sample.groupOf "USD")])
           "main" (Sample.groupOf "USD") eq_refl).
Defined.

(** ** Runs of the whole monitor *)

Lemma get_set_exists {A : Type} k k' (v : A) o :
  get k o <> None -> get k (set k' v o) <> None.
Proof.
  intros H. destruct (String.eqb k k') eqn:E.
  - apply String.eqb_eq in E. subst k'. rewrite get_set_same. discriminate.
  - apply String.eqb_neq in E. now rewrite get_set_other.
Qed.

Lemma Forall_replaceAt {A : Type} (P : A -> Prop) x l : forall i,
  Forall P l -> P x -> Forall P (Global.replaceAt i x l).
Proof.
  induction l as [|y rest IH]; intros i F Px.
  - destruct i; exact F.
  - inversion F; subst. destruct i; cbn [Global.replaceAt]; constructor; auto.
Qed.

Lemma step_baseCurrency step w l g cache :
  step = Conn.turn \/ step = Conn.turnFund ->
  baseCurrency (fst (snd (step w (l, (g, cache))))) = baseCurrency g.
Proof.
  assert (P : forall pass bd,
             pass = Ws.processBalanceData
             \/ pass = Ws.compileAndUpdateBalances
             \/ pass = WsFund.processBalanceData
             \/ pass = WsFund.compileAndUpdateBalances ->
             baseCurrency (fst (pass (Conn.t_ccxt w) (Conn.t_ex w) bd g cache))
             = baseCurrency g).
  { intros pass bd Hp.
    destruct (cache_pass_shape (Conn.t_ccxt w) (Conn.t_ex w) bd g cache pass Hp)
      as (b & _ & _ & Hc & _). exact Hc. }
  intros [-> | ->]; unfold Conn.turn, Conn.turnFund, Conn.turnWith;
    destruct l; try (destruct (Conn.t_pushed w) as [bd|m]; [|reflexivity]);
    cbn [snd]; unfold Ws.pollTurn, WsFund.pollTurn; apply P; auto 6.
Qed.

Lemma event_invariant step world e :
  step = Conn.turn \/ step = Conn.turnFund ->
  Global.invariant world -> Global.invariant (Global.event step world e).
Proof.
  intros Hs (C & D & K). destruct world as [b conns]. cbn [Global.balancesObj
    Global.connections] in *.
  destruct e as [ccxt account groupName | i w]; cbn [Global.event
    Global.balancesObj Global.connections].
  - unfold WsFund.monitorBalances.
    destruct (ccxt (WsFund.acct_e account)) as [cls|];
      [|repeat split; assumption].
    unfold Global.invariant. cbn [Global.balancesObj Global.connections].
    destruct (get groupName b) as [g|] eqn:G.
    + split; [exact C|]. split; [exact D|].
      apply Forall_app. split; [exact K|].
      constructor; [|constructor].
      cbn [Global.c_cache Global.c_groupName]. rewrite G.
      repeat split; try constructor. discriminate.
    + split; [apply values_set; [reflexivity | exact C]|].
      split; [apply values_set; [constructor | exact D]|].
      apply Forall_app. split.
      * eapply Forall_impl; [|exact K].
        intros c (W & A & E). repeat split; auto. now apply get_set_exists.
      * constructor; [|constructor].
        cbn [Global.c_cache Global.c_groupName]. rewrite get_set_same.
        repeat split; try constructor. discriminate.
  - destruct (nth_error conns i) as [c|] eqn:N;
      [|repeat split; assumption].
    assert (Pc : wf (Global.c_cache c) /\ cacheAbove (Global.c_cache c)
                 /\ get (Global.c_groupName c) b <> None).
    { rewrite Forall_forall in K. apply K. eapply nth_error_In; eauto. }
    destruct Pc as (W & A & E).
    unfold Global.turnOf.
    destruct (get (Global.c_groupName c) b) as [g|] eqn:G; [|congruence].
    assert (I : connInvariant (baseCurrency g)
                  (Global.c_loop c, (g, Global.c_cache c))).
    { repeat split; auto.
      - exact (get_values consistent _ _ _ C G).
      - exact (get_values dustFree _ _ _ D G). }
    pose proof (turn_invariant step w _ _ Hs I) as I'.
    destruct (step w (Global.c_loop c, (g, Global.c_cache c)))
      as [l' [g' cache']].
    destruct I' as (W' & A' & C' & D' & _).
    unfold Global.invariant. cbn [Global.balancesObj Global.connections].
    split; [now apply values_set|]. split; [now apply values_set|].
    apply Forall_replaceAt.
    + eapply Forall_impl; [|exact K].
      intros c0 (W0 & A0 & E0). repeat split; auto. now apply get_set_exists.
    + cbn [Global.c_cache Global.c_groupName]. rewrite get_set_same.
      repeat split; auto. discriminate.
Qed.

Lemma global_run_invariant step events : forall world,
  step = Conn.turn \/ step = Conn.turnFund ->
  Global.invariant world -> Global.invariant (Global.run step events world).
Proof.
  unfold Global.run.
  induction events as [|e rest IH]; cbn [fold_left]; intros world Hs I; auto.
  apply IH; auto. now apply event_invariant.
Qed.

(** X18: from the empty balances object, whatever connections [mon.js]
    starts and however their turns interleave, also when several connections
    write to one group: every group record has its total equal to the sum
    over its assets and holds no dust; every cache has distinct keys and
    amounts above 1e-6; and every connection finds the entry of its group,
    so that no pass fails for a missing group. *)
Theorem global_invariant events :
  Global.invariant (Global.run Conn.turn events Global.empty)
  /\ Global.invariant (Global.run Conn.turnFund events Global.empty).
Proof.
  assert (I : Global.invariant Global.empty)
    by (repeat split; constructor).
  split; apply global_run_invariant; auto.
Qed.

Lemma event_keeps_group step world e k g :
  step = Conn.turn \/ step = Conn.turnFund ->
  get k (Global.balancesObj world) = Some g ->
  exists g', get k (Global.balancesObj (Global.event step world e)) = Some g'
             /\ baseCurrency g' = baseCurrency g.
Proof.
  intros Hs G. destruct world as [b conns]. cbn [Global.balancesObj] in *.
  destruct e as [ccxt account groupName | i w]; cbn [Global.event
    Global.balancesObj Global.connections].
  - unfold WsFund.monitorBalances.
    destruct (ccxt (WsFund.acct_e account)) as [cls|]; [|eauto].
    cbn [Global.balancesObj].
    destruct (get groupName b) as [g0|] eqn:G0; [eauto|].
    exists g. split; [|reflexivity].
    rewrite get_set_other; auto. intros ->. congruence.
  - destruct (nth_error conns i) as [c|]; [|eauto].
    unfold Global.turnOf.
    destruct (get (Global.c_groupName c) b) as [g0|] eqn:G0.
    + pose proof (step_baseCurrency step w (Global.c_loop c) g0
                    (Global.c_cache c) Hs) as B.
      destruct (step w (Global.c_loop c, (g0, Global.c_cache c)))
        as [l' [g' cache']].
      cbn [fst snd Global.balancesObj] in *.
      destruct (String.eqb k (Global.c_groupName c)) eqn:E.
      * apply String.eqb_eq in E. subst k. rewrite get_set_same.
        exists g'. split; [reflexivity | congruence].
      * apply String.eqb_neq in E. rewrite get_set_other by assumption. eauto.
    + destruct (Global.c_loop c); [destruct (Conn.t_pushed w)|]; eauto.
Qed.

(** X19: a group record, once created, is never removed and never changes its
    valuation currency: an account started later on the same group with
    another valuation currency does not alter it, and no pass does. *)
Theorem group_valuation_currency_fixed events world k g :
  get k (Global.balancesObj world) = Some g ->
  (exists g', get k (Global.balancesObj (Global.run Conn.turn events world))
              = Some g'
              /\ baseCurrency g' = baseCurrency g)
  /\ (exists g', get k (Global.balancesObj
                          (Global.run Conn.turnFund events world)) = Some g'
                 /\ baseCurrency g' = baseCurrency g).
Proof.
  assert (R : forall step, step = Conn.turn \/ step = Conn.turnFund ->
              forall events world g,
                get k (Global.balancesObj world) = Some g ->
                exists g', get k (Global.balancesObj
                                    (Global.run step events world)) = Some g'
                           /\ baseCurrency g' = baseCurrency g).
  { intros step Hs. unfold Global.run.
    induction events0 as [|e rest IH]; cbn [fold_left]; intros world0 g0 G0;
      [eauto|].
    destruct (event_keeps_group step world0 e k g0 Hs G0) as (g1 & G1 & B1).
    destruct (IH _ _ G1) as (g2 & G2 & B2).
    exists g2. split; [exact G2 | congruence]. }
  intros G. split; eapply R; eauto.
Qed.

(** A group valued in USD, then an account of the same group declaring EUR
    is started and takes a turn. *)
Lemma group_valuation_currency_fixed_witness :
  exists g',
    get "main"
      (Global.balancesObj
         (Global.run Conn.turn
            [Global.Start Sample.binanceOnly
               (WsFund.mkAccount "binance" "main" "EUR" None) "main";
             Global.TurnOf 0
               (Conn.mkTurn Sample.noCcxt Sample.usdEth (Throw "closed"))]
            (Global.mkWorld [("main", Sample.groupOf "USD")] [])))
    = Some g'
    /\ baseCurrency g' = "USD".
Proof.
  exact (proj1 (group_valuation_currency_fixed
                  [Global.Start Sample.binanceOnly
                     (WsFund.mkAccount "binance" "main" "EUR" None) "main";
                   Global.TurnOf 0
                     (Conn.mkTurn Sample.noCcxt Sample.usdEth (Throw "closed"))]
                  (Global.mkWorld [("main", Sample.groupOf "USD")] [])
                  "main" (Sample.groupOf "USD") eq_refl)).
Defined.

(** ** The totals of the coinbase accounts *)

Lemma sumAccounts_throws accounts : forall totalBalances,
  (exists m, Ws.sumAccounts accounts totalBalances = Throw m)
  <-> exists account, In account accounts
                      /\ (available_balance account = None
                          \/ hold account = None).
Proof.
  induction accounts as [|a rest IH]; intros T; cbn [Ws.sumAccounts].
  - split; [intros [m H]; discriminate | intros (a & [] & _)].
  - destruct (available_balance a) as [av|] eqn:A.
    + destruct (hold a) as [ho|] eqn:H.
      * rewrite IH. split.
        -- intros (b & I & Hb). exists b. split; [now right | exact Hb].
        -- intros (b & [<- | I] & Hb); [|eauto].
           destruct Hb; congruence.
      * split; [|eauto]. intros _. exists a. split; [now left | now right].
    + split; [|eauto]. intros _. exists a. split; [now left | now left].
Qed.

Lemma sumAccounts_per_code c accounts : forall T1 T2 R1,
  get c T1 = get c T2 ->
  Ws.sumAccounts accounts T1 = Ok R1 ->
  exists R2,
    Ws.sumAccounts (filter (fun a => String.eqb (code a) c) accounts) T2 = Ok R2
    /\ get c R2 = get c R1.
Proof.
  induction accounts as [|a rest IH]; intros T1 T2 R1 G;
    cbn [Ws.sumAccounts filter].
  - intros [= <-]. eauto.
  - destruct (available_balance a) as [av|] eqn:A; [|discriminate].
    destruct (hold a) as [ho|] eqn:H; [|discriminate].
    destruct (String.eqb (code a) c) eqn:E.
    + apply String.eqb_eq in E. cbn [Ws.sumAccounts]. rewrite A, H, E.
      apply IH. rewrite !get_set_same, G. reflexivity.
    + apply String.eqb_neq in E.
      apply IH. rewrite get_set_other by congruence. exact G.
Qed.

(** X20: the coinbase snapshot of [ws.js] fails exactly when an account lacks
    its available or its hold figure; otherwise the total it reports for a
    currency is the one obtained from the accounts of that currency alone. *)
Theorem coinbase_totals_per_currency accounts c :
  ((exists m, Ws.sumAccounts accounts [] = Throw m)
   <-> exists account, In account accounts
                       /\ (available_balance account = None
                           \/ hold account = None))
  /\ (forall totalBalances,
         Ws.sumAccounts accounts [] = Ok totalBalances ->
         exists own,
           Ws.sumAccounts (filter (fun a => String.eqb (code a) c) accounts) []
           = Ok own
           /\ get c own = get c totalBalances).
Proof.
  split; [apply sumAccounts_throws|].
  intros R H. eapply sumAccounts_per_code; eauto.
Qed.

(** Two BTC accounts and one USD account. *)
Lemma coinbase_totals_per_currency_witness :
  exists own,
    Ws.sumAccounts
      (filter (fun a => String.eqb (code a) "BTC")
              [mkCoinbaseAccount "BTC" (Some 1) (Some 0.5);
               mkCoinbaseAccount "USD" (Some 20) (Some 0);
               mkCoinbaseAccount "BTC" (Some 2) (Some 0)]) [] = Ok own
    /\ get "BTC" own = Some 3.5.
Proof.
  exact (proj2 (coinbase_totals_per_currency
                  [mkCoinbaseAccount "BTC" (Some 1) (Some 0.5);
                   mkCoinbaseAccount "USD" (Some 20) (Some 0);
                   mkCoinbaseAccount "BTC" (Some 2) (Some 0)] "BTC")
           [("BTC", 3.5); ("USD", 20)] eq_refl).
Defined.
